(** * concepts_vs_polymorphism_bm: a shallow embedding

    The benchmark compares two dispatch strategies over the same numeric
    kernel.  The embedding follows [concepts_vs_polymorphism_bm.cpp]:

    - [double] arithmetic is an interface ([Double]) with two
      interpretations: IEEE binary64 ([IEEE], Rocq's primitive floats,
      with the three libm functions the program calls taken as
      parameters, since <cmath> is not part of the repository) and exact
      real arithmetic ([Exact], the functions libm approximates);
    - [std::vector<double>] is a list, [operator[]] is checked: an access
      out of range is undefined behaviour in C++ and [None] here;
    - every class is a record in a module of its name, a [void] member
      function is a state transformer. *)

From Stdlib Require Import ZArith QArith Reals Floats Lra Lia List String.
From stdpp Require Import base option list gmap strings.

Set Default Proof Using "Type".
Set Warnings "-inexact-float".
Set Warnings "-abstract-large-number".

(** ** The arithmetic of [double] *)

Class Double := {
  double : Type;
  (** a decimal literal of the source, as the nearest [double] *)
  dlit : Q -> double;
  (** the implicit conversion [int -> double] *)
  of_int : Z -> double;
  dadd : double -> double -> double;
  dmul : double -> double -> double;
  std_sqrt : double -> double;
  std_sin : double -> double;
  std_cos : double -> double;
  std_tan : double -> double
}.

Declare Scope double_scope.
Delimit Scope double_scope with D.
Infix "+" := dadd : double_scope.
Infix "*" := dmul : double_scope.

(** The functions of <cmath> the kernel calls that IEEE 754 does not fix. *)
Record Libm := {
  libm_sin : float -> float;
  libm_cos : float -> float;
  libm_tan : float -> float
}.

(** [int -> double] is exact for every [int]: 32 bits fit in the 53-bit
    significand. *)
Definition Z2float (z : Z) : float :=
  if (z <? 0)%Z
  then PrimFloat.opp (PrimFloat.of_uint63 (Uint63.of_Z (- z)))
  else PrimFloat.of_uint63 (Uint63.of_Z z).

(** A decimal literal [n/d] is read as the binary64 value nearest to it,
    which is what the correctly rounded division of the two integers
    gives. *)
Definition float_lit (q : Q) : float :=
  PrimFloat.div (Z2float (Qnum q)) (Z2float (Zpos (Qden q))).

Definition IEEE (m : Libm) : Double := {|
  double := float;
  dlit := float_lit;
  of_int := Z2float;
  dadd := PrimFloat.add;
  dmul := PrimFloat.mul;
  std_sqrt := PrimFloat.sqrt;
  std_sin := libm_sin m;
  std_cos := libm_cos m;
  std_tan := libm_tan m
|}.

Definition Exact : Double := {|
  double := R;
  dlit := Q2R;
  of_int := IZR;
  dadd := Rplus;
  dmul := Rmult;
  std_sqrt := R_sqrt.sqrt;
  std_sin := Rtrigo_def.sin;
  std_cos := Rtrigo_def.cos;
  std_tan := Rtrigo1.tan
|}.

(** ** [std::vector<double>] and the [for] loop *)

Section Vector.
Context {A : Type}.

(** [std::vector<A> v(n)]: [n] value-initialised elements. *)
Definition vector_new (n : Z) (zero : A) : list A := replicate (Z.to_nat n) zero.

(** [v[i] = x]; no bounds check in C++, undefined out of range. *)
Definition vector_set (v : list A) (i : Z) (x : A) : option (list A) :=
  if decide (0 <= i < Z.of_nat (length v))%Z
  then Some (<[Z.to_nat i := x]> v)
  else None.

(** [v[i]] read. *)
Definition vector_get (v : list A) (i : Z) : option A :=
  if decide (0 <= i)%Z then v !! Z.to_nat i else None.

End Vector.

Section Loop.
Context {S : Type}.

(** [n] rounds of the body from index [i] upwards. *)
Fixpoint loop_from (n : nat) (i : Z) (body : Z -> S -> option S) (s : S) : option S :=
  match n with
  | O => Some s
  | Datatypes.S n' => s' ← body i s; loop_from n' (i + 1)%Z body s'
  end.

(** [for (int i = lo; i < hi; ++i) body]: the index runs through
    [lo, lo+1, ..., hi-1]; nothing when [hi <= lo]. *)
Definition for_loop (lo hi : Z) (body : Z -> S -> option S) (s : S) : option S :=
  loop_from (Z.to_nat (hi - lo)) lo body s.

End Loop.

(** ** namespace constants *)

Module constants.
Definition VECTOR_SIZE : Z := 10000.
Definition INNER_LOOP_COUNT : Z := 10.
Definition BENCHMARK_ITERATIONS : Z := 10000.
Section Coefficients.
Context {D : Double}.
Definition ACCELERATION_VALUE : double := dlit 50.0.
Definition MIN_TIME : double := dlit 0.1.
Definition POLY_ACCELERATION : double := dlit 0.8.
Definition POLY_FRICTION : double := dlit 0.9.
Definition ELECTRIC_ACCELERATION : double := dlit 0.95.
Definition ELECTRIC_FRICTION : double := dlit 0.85.
Definition GAS_ACCELERATION : double := dlit 0.75.
Definition GAS_FRICTION : double := dlit 0.95.
End Coefficients.
End constants.

(** ** namespace impl: the workload kernel *)

Module impl.
Section Kernel.
Context {D : Double}.

(** The value stored at index [i]:
    [std::sin(speed * i) * std::cos(i * 0.5) * std::tan(speed)]. *)
Definition calculation (speed : double) (i : Z) : double :=
  (std_sin (speed * of_int i) * std_cos (of_int i * dlit 0.5) * std_tan speed)%D.

(** One round of the loop: the store, then the read of the same element
    in [work += calculations[i] * std::sqrt(speed + i)]. *)
Definition doAcceleration_body (speed : double) (i : Z)
    (st : double * list double) : option (double * list double) :=
  let '(work, calculations) := st in
  calculations' ← vector_set calculations i (calculation speed i);
  c ← vector_get calculations' i;
  Some ((work + c * std_sqrt (speed + of_int i))%D, calculations').

(** [doAcceleration(speed, work, calculations)]: the two references are
    the state, returned updated. *)
Definition doAcceleration (speed : double) (work : double)
    (calculations : list double) : option (double * list double) :=
  for_loop 0 constants.VECTOR_SIZE (doAcceleration_body speed) (work, calculations).

End Kernel.
End impl.

(** ** The two generic-dispatch classes *)

Module ElectricSportsCar.
Section Class.
Context {D : Double}.

Record t := {
  speed : double;
  work : double;
  calculations : list double;
  brand : string;
  model : string
}.

(** [ElectricSportsCar(b, m)], with the default member initialisers. *)
Definition new (b m : string) : t := {|
  speed := dlit 0.0;
  work := dlit 0.0;
  calculations := vector_new constants.VECTOR_SIZE (dlit 0.0);
  brand := b;
  model := m
|}.

Definition accelerate (self : t) (s : double) : option t :=
  let speed' := (speed self + s)%D in
  '(work', calculations') ← impl.doAcceleration speed' (work self) (calculations self);
  Some {| speed := speed'; work := work'; calculations := calculations';
          brand := brand self; model := model self |}.

Definition brake (self : t) : t := {|
  speed := of_int 0;
  work := work self;
  calculations := calculations self;
  brand := brand self;
  model := model self
|}.

Definition getWork (self : t) : double := work self.
Definition getBrand (self : t) : string := brand self.
Definition getModel (self : t) : string := model self.

End Class.
End ElectricSportsCar.

Module GasSportsCar.
Section Class.
Context {D : Double}.

Record t := {
  speed : double;
  work : double;
  calculations : list double;
  brand : string;
  model : string
}.

Definition new (b m : string) : t := {|
  speed := dlit 0.0;
  work := dlit 0.0;
  calculations := vector_new constants.VECTOR_SIZE (dlit 0.0);
  brand := b;
  model := m
|}.

Definition accelerate (self : t) (s : double) : option t :=
  let speed' := (speed self + s)%D in
  '(work', calculations') ← impl.doAcceleration speed' (work self) (calculations self);
  Some {| speed := speed'; work := work'; calculations := calculations';
          brand := brand self; model := model self |}.

Definition brake (self : t) : t := {|
  speed := of_int 0;
  work := work self;
  calculations := calculations self;
  brand := brand self;
  model := model self
|}.

Definition getWork (self : t) : double := work self.
Definition getBrand (self : t) : string := brand self.
Definition getModel (self : t) : string := model self.

End Class.
End GasSportsCar.

(** ** The concepts, as interfaces

    A [requires] clause lists member calls with their result types; a
    [void] call is a state transformer, [accelerate] may run the kernel
    out of its buffer. *)

Class Acceleratable {D : Double} (T : Type) := {
  accelerate : T -> double -> option T;
  brake : T -> T;
  getWork : T -> double
}.

Class SportsCar {D : Double} (T : Type) := {
  SportsCar_Acceleratable :: Acceleratable T;
  getBrand : T -> string;
  getModel : T -> string
}.

(** [static_assert(SportsCar<ElectricSportsCar>)] *)
#[export] Instance ElectricSportsCar_SportsCar {D : Double} : SportsCar ElectricSportsCar.t := {|
  SportsCar_Acceleratable := {|
    accelerate := ElectricSportsCar.accelerate;
    brake := ElectricSportsCar.brake;
    getWork := ElectricSportsCar.getWork |};
  getBrand := ElectricSportsCar.getBrand;
  getModel := ElectricSportsCar.getModel
|}.

(** [static_assert(SportsCar<GasSportsCar>)] *)
#[export] Instance GasSportsCar_SportsCar {D : Double} : SportsCar GasSportsCar.t := {|
  SportsCar_Acceleratable := {|
    accelerate := GasSportsCar.accelerate;
    brake := GasSportsCar.brake;
    getWork := GasSportsCar.getWork |};
  getBrand := GasSportsCar.getBrand;
  getModel := GasSportsCar.getModel
|}.

(** ** The virtual-dispatch hierarchy *)

(** The intermediate base: the state and the two shared member
    functions.  [getFriction] is virtual, so [accelerate] takes the
    override of the dynamic type. *)
Module PolyVehicle.
Section Class.
Context {D : Double}.

Record t := {
  speed : double;
  work : double;
  calculations : list double
}.

Definition new : t := {|
  speed := dlit 0.0;
  work := dlit 0.0;
  calculations := vector_new constants.VECTOR_SIZE (dlit 0.0)
|}.

Definition accelerate (getFriction : t -> double) (self : t) (s : double) : option t :=
  let speed' := (speed self + s * getFriction self)%D in
  '(work', calculations') ← impl.doAcceleration speed' (work self) (calculations self);
  Some {| speed := speed'; work := work'; calculations := calculations' |}.

Definition getCurrentSpeed (self : t) : double := speed self.
Definition getWork (self : t) : double := work self.

End Class.
End PolyVehicle.

Module PolyElectricCar.
Section Class.
Context {D : Double}.

Definition getFriction (self : PolyVehicle.t) : double := constants.ELECTRIC_FRICTION.

Definition accelerate : PolyVehicle.t -> double -> option PolyVehicle.t :=
  PolyVehicle.accelerate getFriction.

(** Regenerative braking. *)
Definition brake (self : PolyVehicle.t) : PolyVehicle.t := {|
  PolyVehicle.speed := of_int 0;
  PolyVehicle.work := (PolyVehicle.work self + PolyVehicle.speed self * constants.ELECTRIC_FRICTION)%D;
  PolyVehicle.calculations := PolyVehicle.calculations self
|}.

End Class.
End PolyElectricCar.

Module PolyGasCar.
Section Class.
Context {D : Double}.

Definition getFriction (self : PolyVehicle.t) : double := constants.GAS_FRICTION.

Definition accelerate : PolyVehicle.t -> double -> option PolyVehicle.t :=
  PolyVehicle.accelerate getFriction.

(** Traditional brakes. *)
Definition brake (self : PolyVehicle.t) : PolyVehicle.t := {|
  PolyVehicle.speed := of_int 0;
  PolyVehicle.work := PolyVehicle.work self;
  PolyVehicle.calculations := PolyVehicle.calculations self
|}.

End Class.
End PolyGasCar.

(** An object seen through [Vehicle*]: the dynamic type selects the
    override at every call. *)
Module Vehicle.
Section Class.
Context {D : Double}.

Inductive t :=
  | Electric (self : PolyVehicle.t)
  | Gas (self : PolyVehicle.t).

Definition object (v : t) : PolyVehicle.t :=
  match v with Electric self | Gas self => self end.

Definition getFriction (v : t) : double :=
  match v with
  | Electric self => PolyElectricCar.getFriction self
  | Gas self => PolyGasCar.getFriction self
  end.

Definition accelerate (v : t) (s : double) : option t :=
  match v with
  | Electric self => Electric <$> PolyElectricCar.accelerate self s
  | Gas self => Gas <$> PolyGasCar.accelerate self s
  end.

Definition brake (v : t) : t :=
  match v with
  | Electric self => Electric (PolyElectricCar.brake self)
  | Gas self => Gas (PolyGasCar.brake self)
  end.

Definition getCurrentSpeed (v : t) : double := PolyVehicle.getCurrentSpeed (object v).

End Class.
End Vehicle.

(** ** The benchmark driver *)

(** [for (auto _ : state)]: the harness runs the body a number of times
    it decides; [benchmark::ClobberMemory()] is a compiler barrier and
    leaves the state as it is. *)
Definition state_loop {S : Type} (iterations : Z) (body : S -> option S) (s : S) : option S :=
  for_loop 0 iterations (fun _ => body) s.

Module BM_ConceptBased.
Section Driver.
Context {D : Double}.

(** The local objects of the function; [vehicles] holds the addresses of
    [tesla] and [porsche], and [std::get] at the alternative each slot
    was built with returns them. *)
Record locals := {
  tesla : ElectricSportsCar.t;
  porsche : GasSportsCar.t;
  total_work : double
}.

Definition init : locals := {|
  tesla := ElectricSportsCar.new "Tesla" "Model S";
  porsche := GasSportsCar.new "Porsche" "911";
  total_work := of_int 0
|}.

(** The body of the inner [for]. *)
Definition inner (i : Z) (st : locals) : option locals :=
  electric ← ElectricSportsCar.accelerate (tesla st) constants.ACCELERATION_VALUE;
  let total := (total_work st + ElectricSportsCar.getWork electric)%D in
  let electric := ElectricSportsCar.brake electric in
  gas ← GasSportsCar.accelerate (porsche st) constants.ACCELERATION_VALUE;
  let total := (total + GasSportsCar.getWork gas)%D in
  let gas := GasSportsCar.brake gas in
  Some {| tesla := electric; porsche := gas; total_work := total |}.

(** One measured iteration. *)
Definition iteration (st : locals) : option locals :=
  for_loop 0 constants.INNER_LOOP_COUNT inner st.

Definition run (iterations : Z) : option locals :=
  state_loop iterations iteration init.

End Driver.
End BM_ConceptBased.

Module BM_Polymorphic.
Section Driver.
Context {D : Double}.

(** [vehicles] is [{&tesla, &porsche}]: slot 0 has dynamic type
    [PolyElectricCar], slot 1 [PolyGasCar]; [tesla.getWork()] reads the
    object behind slot 0. *)
Record locals := {
  vehicles_0 : Vehicle.t;
  vehicles_1 : Vehicle.t;
  total_work : double
}.

Definition init : locals := {|
  vehicles_0 := Vehicle.Electric PolyVehicle.new;
  vehicles_1 := Vehicle.Gas PolyVehicle.new;
  total_work := of_int 0
|}.

Definition inner (i : Z) (st : locals) : option locals :=
  v0 ← Vehicle.accelerate (vehicles_0 st) constants.ACCELERATION_VALUE;
  let total := (total_work st + PolyVehicle.getWork (Vehicle.object v0))%D in
  let v0 := Vehicle.brake v0 in
  v1 ← Vehicle.accelerate (vehicles_1 st) constants.ACCELERATION_VALUE;
  let total := (total + PolyVehicle.getWork (Vehicle.object v1))%D in
  let v1 := Vehicle.brake v1 in
  Some {| vehicles_0 := v0; vehicles_1 := v1; total_work := total |}.

Definition iteration (st : locals) : option locals :=
  for_loop 0 constants.INNER_LOOP_COUNT inner st.

Definition run (iterations : Z) : option locals :=
  state_loop iterations iteration init.

End Driver.
End BM_Polymorphic.

(** ** Registration in [main]

    The harness is a library outside the repository; what the program
    fixes is the chain of setters it calls on each registered benchmark.
    A setter records its argument; a field a program never sets is left
    to the library. *)

Module benchmark.

Inductive TimeUnit := kNanosecond | kMicrosecond | kMillisecond | kSecond.

Section Registration.
Context {D : Double}.

Record Benchmark := {
  name : string;
  time_unit : option TimeUnit;
  use_real_time : bool;
  min_time : option double;
  iterations : option Z
}.

Definition RegisterBenchmark (n : string) : Benchmark :=
  {| name := n; time_unit := None; use_real_time := false;
     min_time := None; iterations := None |}.

Definition Unit (u : TimeUnit) (b : Benchmark) : Benchmark :=
  {| name := name b; time_unit := Some u; use_real_time := use_real_time b;
     min_time := min_time b; iterations := iterations b |}.

Definition UseRealTime (b : Benchmark) : Benchmark :=
  {| name := name b; time_unit := time_unit b; use_real_time := true;
     min_time := min_time b; iterations := iterations b |}.

Definition MinTime (t : double) (b : Benchmark) : Benchmark :=
  {| name := name b; time_unit := time_unit b; use_real_time := use_real_time b;
     min_time := Some t; iterations := iterations b |}.

Definition Iterations (n : Z) (b : Benchmark) : Benchmark :=
  {| name := name b; time_unit := time_unit b; use_real_time := use_real_time b;
     min_time := min_time b; iterations := Some n |}.

End Registration.
End benchmark.

Section Main.
Context {D : Double}.
Import benchmark.

(** The benchmarks [main] registers, in order. *)
Definition main_registered : list Benchmark :=
  [ Iterations constants.BENCHMARK_ITERATIONS
      (MinTime constants.MIN_TIME
        (UseRealTime (Unit kMillisecond (RegisterBenchmark "ConceptBased"))));
    Iterations constants.BENCHMARK_ITERATIONS
      (MinTime constants.MIN_TIME
        (UseRealTime (Unit kMillisecond (RegisterBenchmark "Polymorphic")))) ].

End Main.

(** ** Reporting: [impl::reportStats] and the two benchmark functions whole

    [benchmark::State] and [benchmark::Counter] belong to the harness; of
    the state the program uses the iteration count, the map of user
    counters and the label.  A [double] divided by the iteration count,
    and [std::to_string] of a [double], are the two operations
    [reportStats] needs beyond those of the kernel: division is part of
    the arithmetic, the formatting is left to the C library. *)

Class DoubleDiv (D : Double) := ddiv : double -> double -> double.

#[export] Instance IEEE_div (m : Libm) : DoubleDiv (IEEE m) := PrimFloat.div.
#[export] Instance Exact_div : DoubleDiv Exact := Rdiv.

Module Counter.

Inductive Flags := kDefaults | kIsRate.

Section Class.
Context {D : Double}.

Record t := {
  value : double;
  flags : Flags
}.

(** The implicit conversion [Counter(double v)]. *)
Definition of_double (v : double) : t := {| value := v; flags := kDefaults |}.

End Class.
End Counter.

Module State.
Section Class.
Context {D : Double}.

(** [iterations] is what [state.iterations()] returns once the measured
    loop has ended: the number of iterations it ran. *)
Record t := {
  iterations : Z;
  counters : gmap string Counter.t;
  label : string
}.

Definition SetLabel (l : string) (state : t) : t :=
  {| iterations := iterations state; counters := counters state; label := l |}.

(** [state.counters[k] = c] *)
Definition set_counter (k : string) (c : Counter.t) (state : t) : t :=
  {| iterations := iterations state; counters := <[k := c]> (counters state);
     label := label state |}.

End Class.
End State.

Section ReportStats.
Context {D : Double} {Dv : DoubleDiv D}.
Variable to_string : double -> string.

(** [impl::reportStats(state, total_work)]; the iteration count is
    converted to [double] where it meets one. *)
Definition reportStats (state : State.t) (total_work : double) : State.t :=
  let n := of_int (State.iterations state) in
  let state := State.set_counter "iterations" (Counter.of_double n) state in
  let state :=
    State.set_counter "items_per_second"
      {| Counter.value := n; Counter.flags := Counter.kIsRate |} state in
  let state :=
    State.set_counter "avg_work_per_iteration"
      (Counter.of_double (ddiv total_work n)) state in
  State.SetLabel
    ("Total accumulated work (from calculations): " ++ to_string total_work
     ++ " (avg per iter: " ++ to_string (ddiv total_work n) ++ ")")%string
    state.

(** A benchmark function whole: the measured loop for the iterations
    the harness asks for, then the report.  [state] is the state as it
    is handed back, with the iterations run. *)
Definition BM_ConceptBased_function (state : State.t) : option State.t :=
  st ← BM_ConceptBased.run (State.iterations state);
  Some (reportStats state (BM_ConceptBased.total_work st)).

Definition BM_Polymorphic_function (state : State.t) : option State.t :=
  st ← BM_Polymorphic.run (State.iterations state);
  Some (reportStats state (BM_Polymorphic.total_work st)).

End ReportStats.

(** * The vocabulary of the specification

    The definitions of this part are not in the source: they word what
    the specification says of it, for the theorems to compare with the
    code. *)

(** ** The kernel in closed form

    What the specification says of the kernel, written without the loop:
    the buffer holds the stored value at every index, and [work] has
    gained the terms in index order. *)

Section ClosedForm.
Context {D : Double}.

Definition kernel_indices : list Z := seqZ 0 constants.VECTOR_SIZE.

(** [sin(speed*i) * cos(i*0.5) * tan(speed) * sqrt(speed + i)] *)
Definition kernel_term (speed : double) (i : Z) : double :=
  (std_sin (speed * of_int i) * std_cos (of_int i * dlit 0.5) * std_tan speed
   * std_sqrt (speed + of_int i))%D.

Definition sum_from (work : double) (terms : list double) : double :=
  fold_left dadd terms work.

Definition kernel_sum (speed work : double) : double :=
  sum_from work (kernel_term speed <$> kernel_indices).

Definition kernel_buffer (speed : double) : list double :=
  impl.calculation speed <$> kernel_indices.

End ClosedForm.

(** ** Sequences of calls on one object *)

Section Calls.
Context {D : Double} {T : Type}.
Variable accelerate : T -> double -> option T.
Variable brake : T -> T.

Inductive call :=
  | Accelerate (s : double)
  | Brake.

Definition do_call (c : call) (x : T) : option T :=
  match c with
  | Accelerate s => accelerate x s
  | Brake => Some (brake x)
  end.

Fixpoint run_calls (cs : list call) (x : T) : option T :=
  match cs with
  | [] => Some x
  | c :: cs' => x' ← do_call c x; run_calls cs' x'
  end.

End Calls.

Arguments call {D}.
Arguments Accelerate {D} s.
Arguments Brake {D}.

(** ** Objects, runs and repetitions *)

Section Vocabulary.
Context {D : Double}.

(** A buffer of the constructed length. *)
Definition sized (cs : list double) : Prop :=
  length cs = Z.to_nat constants.VECTOR_SIZE.

(** [work] after [n] calls of [accelerate(s)], from [speed] and [work]. *)
Fixpoint work_after (s speed work : double) (n : nat) : double :=
  match n with
  | O => work
  | Datatypes.S n' => work_after s (speed + s)%D (kernel_sum (speed + s)%D work) n'
  end.

(** The state the two classes share, labels apart. *)
Definition same_state (e : ElectricSportsCar.t) (g : GasSportsCar.t) : Prop :=
  ElectricSportsCar.speed e = GasSportsCar.speed g
  /\ ElectricSportsCar.work e = GasSportsCar.work g
  /\ ElectricSportsCar.calculations e = GasSportsCar.calculations g.

(** [f], [n] times in a row. *)
Fixpoint repeat_times {S : Type} (n : nat) (f : S -> option S) (s : S) : option S :=
  match n with
  | O => Some s
  | Datatypes.S n' => s' ← f s; repeat_times n' f s'
  end.

(** On one vehicle: accelerate with 50.0, add [getWork()] to the running
    total, brake. *)
Definition accelerate_account_brake {T : Type}
    (accelerate : T -> double -> option T) (getWork : T -> double) (brake : T -> T)
    (car : T) (total : double) : option (T * double) :=
  car' ← accelerate car (dlit 50.0);
  Some (brake car', (total + getWork car')%D).

(** The sequence once for the Electric variant, then once for the Gas
    variant. *)
Definition ConceptBased_repetition (st : BM_ConceptBased.locals) : option BM_ConceptBased.locals :=
  '(electric, total) ←
    accelerate_account_brake ElectricSportsCar.accelerate ElectricSportsCar.getWork
      ElectricSportsCar.brake (BM_ConceptBased.tesla st) (BM_ConceptBased.total_work st);
  '(gas, total') ←
    accelerate_account_brake GasSportsCar.accelerate GasSportsCar.getWork
      GasSportsCar.brake (BM_ConceptBased.porsche st) total;
  Some {| BM_ConceptBased.tesla := electric; BM_ConceptBased.porsche := gas;
          BM_ConceptBased.total_work := total' |}.

Definition Polymorphic_repetition (st : BM_Polymorphic.locals) : option BM_Polymorphic.locals :=
  '(electric, total) ←
    accelerate_account_brake Vehicle.accelerate (fun v => PolyVehicle.getWork (Vehicle.object v))
      Vehicle.brake (BM_Polymorphic.vehicles_0 st) (BM_Polymorphic.total_work st);
  '(gas, total') ←
    accelerate_account_brake Vehicle.accelerate (fun v => PolyVehicle.getWork (Vehicle.object v))
      Vehicle.brake (BM_Polymorphic.vehicles_1 st) total;
  Some {| BM_Polymorphic.vehicles_0 := electric; BM_Polymorphic.vehicles_1 := gas;
          BM_Polymorphic.total_work := total' |}.

End Vocabulary.

(** ** Binary64 and exact arithmetic *)

Section ArithmeticVocabulary.

(** Equality of two [double]s as a program observes it: the same value,
    where [==] does not tell [+0.0] from [-0.0]. *)
Definition double_equal (x y : float) : Prop := x = y \/ PrimFloat.eqb x y = true.


(** The kernel's term at [speed = 50.0], in the notation of floats. *)
Definition term_50 (m : Libm) (i : Z) : float :=
  (libm_sin m (50 * Z2float i) * libm_cos m (Z2float i * 0.5) * libm_tan m 50
   * PrimFloat.sqrt (50 + Z2float i))%float.


End ArithmeticVocabulary.

(** ** Vocabulary of the further properties *)

Section FurtherVocabulary.

(** An [accelerate(s)] call scaled by a friction coefficient. *)
Definition scale_call {D : Double} (f : double) (c : call) : call :=
  match c with
  | Accelerate s => Accelerate (s * f)%D
  | Brake => Brake
  end.

(** [step], [k] times from [x]. *)
Fixpoint iterate {X : Type} (step : X -> X) (x : X) (k : nat) : X :=
  match k with
  | O => x
  | Datatypes.S k' => iterate step (step x) k'
  end.

(** One repetition of the inner loop of [BM_ConceptBased] on the pair
    (work of either car, total): the kernel at speed 50.0 on the work,
    which both cars then add to the total. *)
Definition ConceptBased_step (m : Libm) (wt : float * float) : float * float :=
  let w' := kernel_sum (D := IEEE m) 50%float (fst wt) in
  (w', (snd wt + w' + w')%float).

(** One repetition of the inner loop of [BM_Polymorphic] on the triple
    (work of the electric car, work of the gas car, total): the kernel at
    42.5 and the 36.125 the brake recovers, the kernel at 47.5. *)
Definition Polymorphic_step (m : Libm) (wwt : float * float * float) : float * float * float :=
  let '(we, wg, t) := wwt in
  let we' := kernel_sum (D := IEEE m) 42.5%float we in
  let wg' := kernel_sum (D := IEEE m) 47.5%float wg in
  ((we' + 36.125)%float, wg', (t + we' + wg')%float).

(** A libm to evaluate with: the first-order approximations.  The
    hypotheses it serves to meet do not depend on libm. *)
Definition small_angle_libm : Libm :=
  {| libm_sin := fun x => x; libm_cos := fun _ => 1%float; libm_tan := fun x => x |}.

End FurtherVocabulary.

Section BenchmarkVocabulary.
Variable m : Libm.

(** Between two repetitions of [BM_ConceptBased]: both cars stand still
    with the same work and a buffer of the constructed length. *)
Definition ConceptBased_at_rest (wt : float * float)
    (st : BM_ConceptBased.locals (D := IEEE m)) : Prop :=
  ElectricSportsCar.speed (BM_ConceptBased.tesla st) = 0%float
  /\ ElectricSportsCar.work (BM_ConceptBased.tesla st) = fst wt
  /\ sized (ElectricSportsCar.calculations (BM_ConceptBased.tesla st))
  /\ GasSportsCar.speed (BM_ConceptBased.porsche st) = 0%float
  /\ GasSportsCar.work (BM_ConceptBased.porsche st) = fst wt
  /\ sized (GasSportsCar.calculations (BM_ConceptBased.porsche st))
  /\ BM_ConceptBased.total_work st = snd wt.

(** Between two repetitions of [BM_Polymorphic]. *)
Definition Polymorphic_at_rest (wwt : float * float * float)
    (st : BM_Polymorphic.locals (D := IEEE m)) : Prop :=
  exists pe pg,
    BM_Polymorphic.vehicles_0 st = Vehicle.Electric pe
    /\ BM_Polymorphic.vehicles_1 st = Vehicle.Gas pg
    /\ PolyVehicle.speed pe = 0%float /\ PolyVehicle.work pe = wwt.1.1
    /\ sized (PolyVehicle.calculations pe)
    /\ PolyVehicle.speed pg = 0%float /\ PolyVehicle.work pg = wwt.1.2
    /\ sized (PolyVehicle.calculations pg)
    /\ BM_Polymorphic.total_work st = wwt.2.

End BenchmarkVocabulary.

Section StrategyVocabulary.
Context {D : Double}.

(** A [GasSportsCar] and an object seen through [Vehicle*] that is a
    [PolyGasCar] with the same speed, work and buffer. *)
Definition same_gas_state (g : GasSportsCar.t) (v : Vehicle.t) : Prop :=
  match v with
  | Vehicle.Gas p =>
      GasSportsCar.speed g = PolyVehicle.speed p
      /\ GasSportsCar.work g = PolyVehicle.work p
      /\ GasSportsCar.calculations g = PolyVehicle.calculations p
  | Vehicle.Electric _ => False
  end.

End StrategyVocabulary.

Section ExactVocabulary.
Open Scope R_scope.



End ExactVocabulary.

(** * Enclosures of real numbers

    To decide of which sign a sum of ten thousand kernel terms is in
    exact arithmetic, the terms are enclosed between fixed-point numbers:
    a pair [(l, u)] of integers at scale [2^p] stands for the reals [x]
    with [l <= x * 2^p <= u]. *)

Module enclosure.

















End enclosure.

(** ** The sign of the kernel's sum at speed 47.5

    [PolyGasCar] runs the kernel at [0.0 + 50.0 * 0.95], which is 47.5 in
    exact arithmetic.  Every angle of the sum is then a multiple of 1/2:
    [47.5 * i] and [i * 0.5].  The cosine and sine of [2^-90] are enclosed
    from their series, those of 1/2, 47.5, 50 and 4750 follow by angle
    addition, and with [i = 100 * a + b] each term takes two more. *)

Module gas_kernel.
Import enclosure.


(** The real sum, without the factor [tan 47.5] shared by all terms. *)
Definition w (i : Z) : R :=
  (sin (95 / 2 * IZR i) * cos (IZR i * (1 / 2)) * R_sqrt.sqrt (95 / 2 + IZR i))%R.









End gas_kernel.

(** * Lemmas *)

(** ** Lemmas on vectors and loops *)

Section VectorFacts.
Context {A : Type}.
Implicit Types (v : list A) (i : Z) (x : A).

Lemma vector_new_length n (zero : A) :
  length (vector_new n zero) = Z.to_nat n.
Proof. apply length_replicate. Qed.

Lemma vector_set_Some v i x :
  (0 <= i < Z.of_nat (length v))%Z ->
  vector_set v i x = Some (<[Z.to_nat i := x]> v).
Proof. intros Hi. unfold vector_set. by rewrite decide_True. Qed.

Lemma vector_set_None v i x :
  ¬ (0 <= i < Z.of_nat (length v))%Z -> vector_set v i x = None.
Proof. intros Hi. unfold vector_set. by rewrite decide_False. Qed.

Lemma vector_set_length v i x v' :
  vector_set v i x = Some v' -> length v' = length v.
Proof.
  unfold vector_set. case_decide; [|done].
  intros [= <-]. apply length_insert.
Qed.

Lemma vector_set_in_bounds v i x v' :
  vector_set v i x = Some v' -> (0 <= i < Z.of_nat (length v))%Z.
Proof. unfold vector_set. by case_decide. Qed.

Lemma vector_get_set v i x :
  (0 <= i < Z.of_nat (length v))%Z ->
  vector_get (<[Z.to_nat i := x]> v) i = Some x.
Proof.
  intros Hi. unfold vector_get. rewrite decide_True by lia.
  apply list_lookup_insert_eq. lia.
Qed.

End VectorFacts.

Section LoopFacts.
Context {S : Type}.
Implicit Types (body : Z -> S -> option S) (s : S).

Lemma loop_from_add body n m : forall i s,
  loop_from (n + m) i body s
  = s' ← loop_from n i body s; loop_from m (i + Z.of_nat n)%Z body s'.
Proof.
  induction n as [|n IH]; intros i s.
  - simpl. by rewrite Z.add_0_r.
  - cbn [Nat.add loop_from]. destruct (body i s) as [s'|]; [|done]. simpl.
    rewrite IH. by replace (i + 1 + Z.of_nat n)%Z with (i + Z.of_nat (Datatypes.S n))%Z by lia.
Qed.

End LoopFacts.

Section KernelFacts.
Context {D : Double}.
Implicit Types (speed work : double) (cs : list double).

Lemma doAcceleration_body_Some speed i work cs :
  (0 <= i < Z.of_nat (length cs))%Z ->
  impl.doAcceleration_body speed i (work, cs)
  = Some ((work + kernel_term speed i)%D, <[Z.to_nat i := impl.calculation speed i]> cs).
Proof.
  intros Hi. unfold impl.doAcceleration_body.
  rewrite vector_set_Some by done. simpl.
  rewrite vector_get_set by done. reflexivity.
Qed.

Lemma doAcceleration_body_None speed i work cs :
  ¬ (0 <= i < Z.of_nat (length cs))%Z ->
  impl.doAcceleration_body speed i (work, cs) = None.
Proof.
  intros Hi. unfold impl.doAcceleration_body.
  by rewrite vector_set_None.
Qed.

(** The loop from index [i] for [n] rounds inside the buffer. *)
Lemma kernel_loop speed n : forall i work cs,
  (0 <= i)%Z -> (i + Z.of_nat n <= Z.of_nat (length cs))%Z ->
  exists cs',
    loop_from n i (impl.doAcceleration_body speed) (work, cs)
    = Some (sum_from work (kernel_term speed <$> seqZ i (Z.of_nat n)), cs')
    /\ length cs' = length cs
    /\ (forall j, (i <= j < i + Z.of_nat n)%Z ->
          cs' !! Z.to_nat j = Some (impl.calculation speed j))
    /\ (forall k : nat, ¬ (i <= Z.of_nat k < i + Z.of_nat n)%Z -> cs' !! k = cs !! k).
Proof.
  induction n as [|n IH]; intros i work cs Hi Hn.
  - exists cs. simpl. split; [done|]. split; [done|]. split; [intros; lia | done].
  - cbn [loop_from]. rewrite doAcceleration_body_Some by lia. simpl.
    destruct (IH (i + 1)%Z (work + kernel_term speed i)%D
                 (<[Z.to_nat i := impl.calculation speed i]> cs))
      as (cs' & Hrun & Hlen & Hin & Hout);
      [lia | rewrite length_insert; lia |].
    exists cs'. rewrite Hrun. split; [|split; [|split]].
    + rewrite (seqZ_cons i) by lia. simpl.
      replace (Z.pred (Z.of_nat (Datatypes.S n))) with (Z.of_nat n) by lia.
      reflexivity.
    + by rewrite Hlen, length_insert.
    + intros j Hj. destruct (decide (j = i)) as [->|Hne].
      * rewrite Hout by lia. apply list_lookup_insert_eq. lia.
      * apply Hin. lia.
    + intros k Hk. rewrite Hout by lia.
      apply list_lookup_insert_ne. lia.
Qed.

(** The kernel on a buffer of [VECTOR_SIZE] elements. *)
Lemma doAcceleration_closed_form speed work cs :
  length cs = Z.to_nat constants.VECTOR_SIZE ->
  impl.doAcceleration speed work cs = Some (kernel_sum speed work, kernel_buffer speed).
Proof.
  intros Hlen. unfold impl.doAcceleration, for_loop.
  destruct (kernel_loop speed (Z.to_nat (constants.VECTOR_SIZE - 0)) 0 work cs)
    as (cs' & Hrun & Hlen' & Hin & _); [lia | rewrite Hlen; lia |].
  rewrite Hrun. unfold kernel_sum, kernel_buffer, kernel_indices.
  rewrite Z2Nat.id by done. rewrite Z.sub_0_r. do 2 f_equal.
  apply list_eq. intros k. rewrite list_lookup_fmap.
  destruct (decide (k < Z.to_nat constants.VECTOR_SIZE)) as [Hk|Hk].
  - rewrite <- (Nat2Z.id k) at 1. rewrite Hin by lia.
    rewrite lookup_seqZ_lt by lia. done.
  - rewrite lookup_ge_None_2 by lia.
    rewrite lookup_seqZ_ge by lia. done.
Qed.

(** A buffer too short makes the kernel run out of it. *)
Lemma doAcceleration_out_of_bounds speed work cs :
  length cs < Z.to_nat constants.VECTOR_SIZE ->
  impl.doAcceleration speed work cs = None.
Proof.
  intros Hlen. unfold impl.doAcceleration, for_loop.
  replace (Z.to_nat (constants.VECTOR_SIZE - 0))
    with (length cs + Datatypes.S (Z.to_nat constants.VECTOR_SIZE - length cs - 1)) by lia.
  rewrite loop_from_add.
  destruct (kernel_loop speed (length cs) 0 work cs) as (cs' & -> & Hlen' & _); [lia..|].
  cbn [mbind option_bind loop_from].
  rewrite doAcceleration_body_None by lia. done.
Qed.

End KernelFacts.

(** ** What one call does to an object *)

Section ObjectFacts.
Context {D : Double}.

Lemma kernel_buffer_length (speed : double) :
  length (kernel_buffer speed) = Z.to_nat constants.VECTOR_SIZE.
Proof. unfold kernel_buffer, kernel_indices. by rewrite length_fmap, length_seqZ. Qed.

Lemma ElectricSportsCar_new_length b m :
  length (ElectricSportsCar.calculations (ElectricSportsCar.new b m))
  = Z.to_nat constants.VECTOR_SIZE.
Proof. apply vector_new_length. Qed.

Lemma GasSportsCar_new_length b m :
  length (GasSportsCar.calculations (GasSportsCar.new b m))
  = Z.to_nat constants.VECTOR_SIZE.
Proof. apply vector_new_length. Qed.

Lemma PolyVehicle_new_length :
  length (PolyVehicle.calculations PolyVehicle.new) = Z.to_nat constants.VECTOR_SIZE.
Proof. apply vector_new_length. Qed.

Lemma ElectricSportsCar_accelerate_run (e : ElectricSportsCar.t) (s : double) :
  length (ElectricSportsCar.calculations e) = Z.to_nat constants.VECTOR_SIZE ->
  ElectricSportsCar.accelerate e s
  = Some {| ElectricSportsCar.speed := (ElectricSportsCar.speed e + s)%D;
            ElectricSportsCar.work :=
              kernel_sum (ElectricSportsCar.speed e + s)%D (ElectricSportsCar.work e);
            ElectricSportsCar.calculations := kernel_buffer (ElectricSportsCar.speed e + s)%D;
            ElectricSportsCar.brand := ElectricSportsCar.brand e;
            ElectricSportsCar.model := ElectricSportsCar.model e |}.
Proof.
  intros Hlen. unfold ElectricSportsCar.accelerate.
  by rewrite doAcceleration_closed_form.
Qed.

Lemma GasSportsCar_accelerate_run (g : GasSportsCar.t) (s : double) :
  length (GasSportsCar.calculations g) = Z.to_nat constants.VECTOR_SIZE ->
  GasSportsCar.accelerate g s
  = Some {| GasSportsCar.speed := (GasSportsCar.speed g + s)%D;
            GasSportsCar.work :=
              kernel_sum (GasSportsCar.speed g + s)%D (GasSportsCar.work g);
            GasSportsCar.calculations := kernel_buffer (GasSportsCar.speed g + s)%D;
            GasSportsCar.brand := GasSportsCar.brand g;
            GasSportsCar.model := GasSportsCar.model g |}.
Proof.
  intros Hlen. unfold GasSportsCar.accelerate.
  by rewrite doAcceleration_closed_form.
Qed.

Lemma PolyVehicle_accelerate_run (getFriction : PolyVehicle.t -> double)
    (p : PolyVehicle.t) (s : double) :
  length (PolyVehicle.calculations p) = Z.to_nat constants.VECTOR_SIZE ->
  PolyVehicle.accelerate getFriction p s
  = Some {| PolyVehicle.speed := (PolyVehicle.speed p + s * getFriction p)%D;
            PolyVehicle.work :=
              kernel_sum (PolyVehicle.speed p + s * getFriction p)%D (PolyVehicle.work p);
            PolyVehicle.calculations :=
              kernel_buffer (PolyVehicle.speed p + s * getFriction p)%D |}.
Proof.
  intros Hlen. unfold PolyVehicle.accelerate.
  by rewrite doAcceleration_closed_form.
Qed.

Lemma Vehicle_accelerate_run (v : Vehicle.t) (s : double) :
  length (PolyVehicle.calculations (Vehicle.object v)) = Z.to_nat constants.VECTOR_SIZE ->
  exists p,
    Vehicle.accelerate v s
    = Some (match v with Vehicle.Electric _ => Vehicle.Electric p | Vehicle.Gas _ => Vehicle.Gas p end)
    /\ PolyVehicle.speed p = (Vehicle.getCurrentSpeed v + s * Vehicle.getFriction v)%D
    /\ PolyVehicle.work p
       = kernel_sum (Vehicle.getCurrentSpeed v + s * Vehicle.getFriction v)%D
           (PolyVehicle.work (Vehicle.object v))
    /\ PolyVehicle.calculations p
       = kernel_buffer (Vehicle.getCurrentSpeed v + s * Vehicle.getFriction v)%D.
Proof.
  intros Hlen. destruct v as [p|p]; simpl in *.
  - unfold PolyElectricCar.accelerate. rewrite PolyVehicle_accelerate_run by done.
    eexists. split; [reflexivity|]. done.
  - unfold PolyGasCar.accelerate. rewrite PolyVehicle_accelerate_run by done.
    eexists. split; [reflexivity|]. done.
Qed.

End ObjectFacts.

(** ** Sequences of calls *)

Section CallFacts.
Context {D : Double} {T : Type}.
Variable accelerate : T -> double -> option T.
Variable brake : T -> T.

(** A property kept by both operations holds after any sequence, and
    the sequence runs to its end when [accelerate] does under it. *)
Lemma run_calls_invariant (P : T -> Prop) :
  (forall x s, P x -> exists x', accelerate x s = Some x' /\ P x') ->
  (forall x, P x -> P (brake x)) ->
  forall cs x, P x -> exists x', run_calls accelerate brake cs x = Some x' /\ P x'.
Proof.
  intros Hacc Hbrake cs. induction cs as [|c cs IH]; intros x HP.
  - exists x. done.
  - destruct c as [s|]; simpl.
    + destruct (Hacc x s HP) as (x' & -> & HP'). simpl. by apply IH.
    + apply IH. by apply Hbrake.
Qed.

End CallFacts.

(** ** The buffer keeps its length *)

Section BufferFacts.
Context {D : Double}.

Lemma ElectricSportsCar_run_sized (calls : list call) (e : ElectricSportsCar.t) :
  sized (ElectricSportsCar.calculations e) ->
  exists e', run_calls ElectricSportsCar.accelerate ElectricSportsCar.brake calls e = Some e'
             /\ sized (ElectricSportsCar.calculations e').
Proof.
  apply (run_calls_invariant _ _ (fun x => sized (ElectricSportsCar.calculations x))).
  - intros x s Hx. eexists. split; [by apply ElectricSportsCar_accelerate_run|].
    apply kernel_buffer_length.
  - intros x Hx. exact Hx.
Qed.

Lemma GasSportsCar_run_sized (calls : list call) (g : GasSportsCar.t) :
  sized (GasSportsCar.calculations g) ->
  exists g', run_calls GasSportsCar.accelerate GasSportsCar.brake calls g = Some g'
             /\ sized (GasSportsCar.calculations g').
Proof.
  apply (run_calls_invariant _ _ (fun x => sized (GasSportsCar.calculations x))).
  - intros x s Hx. eexists. split; [by apply GasSportsCar_accelerate_run|].
    apply kernel_buffer_length.
  - intros x Hx. exact Hx.
Qed.

Lemma Vehicle_run_sized (calls : list call) (v : Vehicle.t) :
  sized (PolyVehicle.calculations (Vehicle.object v)) ->
  exists v', run_calls Vehicle.accelerate Vehicle.brake calls v = Some v'
             /\ sized (PolyVehicle.calculations (Vehicle.object v')).
Proof.
  apply (run_calls_invariant _ _ (fun x => sized (PolyVehicle.calculations (Vehicle.object x)))).
  - intros x s Hx. destruct (Vehicle_accelerate_run x s Hx) as (p & Hrun & _ & _ & Hbuf).
    eexists. split; [exact Hrun|].
    unfold sized. destruct x; simpl; rewrite Hbuf; apply kernel_buffer_length.
  - intros [p|p] Hx; exact Hx.
Qed.

(** The kernel succeeds exactly on a buffer that holds every index it
    touches, and hands the buffer back at its length. *)
Lemma doAcceleration_length (speed work : double) (cs : list double) :
  match impl.doAcceleration speed work cs with
  | Some (_, cs') => length cs' = length cs /\ Z.to_nat constants.VECTOR_SIZE <= length cs
  | None => length cs < Z.to_nat constants.VECTOR_SIZE
  end.
Proof.
  destruct (decide (length cs < Z.to_nat constants.VECTOR_SIZE)) as [Hlt|Hge].
  - by rewrite doAcceleration_out_of_bounds.
  - unfold impl.doAcceleration, for_loop.
    destruct (kernel_loop speed (Z.to_nat (constants.VECTOR_SIZE - 0)) 0 work cs)
      as (cs' & -> & Hlen & _); [lia | lia |].
    split; [exact Hlen | lia].
Qed.

End BufferFacts.

(** ** Repeated acceleration, and the two generic classes side by side *)

Section GenericFacts.
Context {D : Double}.

Lemma ElectricSportsCar_repeat_accelerate (n : nat) (s : double) :
  forall e : ElectricSportsCar.t,
  sized (ElectricSportsCar.calculations e) ->
  ElectricSportsCar.getWork
    <$> run_calls ElectricSportsCar.accelerate ElectricSportsCar.brake
          (replicate n (Accelerate s)) e
  = Some (work_after s (ElectricSportsCar.speed e) (ElectricSportsCar.work e) n).
Proof.
  induction n as [|n IH]; intros e He; [done|].
  cbn [replicate run_calls do_call].
  rewrite ElectricSportsCar_accelerate_run by done. cbn [mbind option_bind].
  rewrite IH by apply kernel_buffer_length.
  cbn [work_after ElectricSportsCar.speed ElectricSportsCar.work]. reflexivity.
Qed.

Lemma GasSportsCar_repeat_accelerate (n : nat) (s : double) :
  forall g : GasSportsCar.t,
  sized (GasSportsCar.calculations g) ->
  GasSportsCar.getWork
    <$> run_calls GasSportsCar.accelerate GasSportsCar.brake
          (replicate n (Accelerate s)) g
  = Some (work_after s (GasSportsCar.speed g) (GasSportsCar.work g) n).
Proof.
  induction n as [|n IH]; intros g Hg; [done|].
  cbn [replicate run_calls do_call].
  rewrite GasSportsCar_accelerate_run by done. cbn [mbind option_bind].
  rewrite IH by apply kernel_buffer_length.
  cbn [work_after GasSportsCar.speed GasSportsCar.work]. reflexivity.
Qed.

Lemma same_state_new b m b' m' :
  same_state (ElectricSportsCar.new b m) (GasSportsCar.new b' m').
Proof. done. Qed.

Lemma same_state_accelerate e g s :
  same_state e g ->
  option_Forall2 same_state (ElectricSportsCar.accelerate e s) (GasSportsCar.accelerate g s).
Proof.
  intros (Hs & Hw & Hc).
  unfold ElectricSportsCar.accelerate, GasSportsCar.accelerate.
  rewrite Hs, Hw, Hc.
  destruct (impl.doAcceleration _ _ _) as [[w cs]|]; simpl; by constructor.
Qed.

Lemma same_state_brake e g :
  same_state e g -> same_state (ElectricSportsCar.brake e) (GasSportsCar.brake g).
Proof. intros (Hs & Hw & Hc). done. Qed.

Lemma same_state_run calls : forall e g,
  same_state e g ->
  option_Forall2 same_state
    (run_calls ElectricSportsCar.accelerate ElectricSportsCar.brake calls e)
    (run_calls GasSportsCar.accelerate GasSportsCar.brake calls g).
Proof.
  induction calls as [|c calls IH]; intros e g Heg; [by constructor|].
  destruct c as [s|]; simpl.
  - destruct (same_state_accelerate e g s Heg) as [e' g' Heg'|]; simpl.
    + by apply IH.
    + constructor.
  - by apply IH, same_state_brake.
Qed.

End GenericFacts.

(** ** The inner loop is the repetition *)

Section RepetitionFacts.
Context {D : Double}.

Lemma loop_from_repeat_times {S : Type} (body : Z -> S -> option S) (f : S -> option S) :
  (forall i s, body i s = f s) ->
  forall n i s, loop_from n i body s = repeat_times n f s.
Proof.
  intros Hbody n. induction n as [|n IH]; intros i s; [done|].
  simpl. rewrite Hbody. destruct (f s) as [s'|]; [|done]. simpl. apply IH.
Qed.

Lemma ConceptBased_inner_repetition (i : Z) (st : BM_ConceptBased.locals) :
  BM_ConceptBased.inner i st = ConceptBased_repetition st.
Proof.
  unfold BM_ConceptBased.inner, ConceptBased_repetition, accelerate_account_brake.
  change constants.ACCELERATION_VALUE with (dlit 50.0).
  destruct (ElectricSportsCar.accelerate _ _) as [e|]; [|done]. simpl.
  destruct (GasSportsCar.accelerate _ _) as [g|]; done.
Qed.

Lemma Polymorphic_inner_repetition (i : Z) (st : BM_Polymorphic.locals) :
  BM_Polymorphic.inner i st = Polymorphic_repetition st.
Proof.
  unfold BM_Polymorphic.inner, Polymorphic_repetition, accelerate_account_brake.
  change constants.ACCELERATION_VALUE with (dlit 50.0).
  destruct (Vehicle.accelerate (BM_Polymorphic.vehicles_0 st) _) as [e|]; [|done]. simpl.
  destruct (Vehicle.accelerate (BM_Polymorphic.vehicles_1 st) _) as [g|]; done.
Qed.

End RepetitionFacts.

(** ** Facts of binary64 arithmetic the program relies on *)

Section IEEEFacts.
Open Scope float_scope.

Lemma float_zero_plus (x : float) :
  0 + x = x \/ (x = -0 /\ 0 + x = 0).
Proof.
  destruct (Prim2SF x) as [[|]| | |] eqn:E.
  - right. assert (Hx : x = -0).
    { rewrite <- (SF2Prim_Prim2SF x). rewrite E. reflexivity. }
    split; [done|]. rewrite Hx. reflexivity.
  - left. apply Prim2SF_inj. rewrite add_spec, E. reflexivity.
  - left. apply Prim2SF_inj. rewrite add_spec, E. reflexivity.
  - left. apply Prim2SF_inj. rewrite add_spec, E. reflexivity.
  - left. apply Prim2SF_inj. rewrite add_spec, E. reflexivity.
Qed.

Lemma float_zero_plus_equal (x : float) : double_equal (0 + x) x.
Proof.
  destruct (float_zero_plus x) as [->|[-> ->]]; [by left|by right].
Qed.

End IEEEFacts.

Section IEEEConstants.
Variable m : Libm.
Open Scope float_scope.

Lemma IEEE_zero : @dlit (IEEE m) 0.0%Q = 0.
Proof. reflexivity. Qed.

Lemma IEEE_of_int_0 : @of_int (IEEE m) 0 = 0.
Proof. reflexivity. Qed.

Lemma IEEE_half : @dlit (IEEE m) 0.5%Q = 0.5.
Proof. reflexivity. Qed.

Lemma IEEE_ACCELERATION_VALUE : @constants.ACCELERATION_VALUE (IEEE m) = 50.
Proof. reflexivity. Qed.

Lemma IEEE_ELECTRIC_FRICTION : @constants.ELECTRIC_FRICTION (IEEE m) = 0.85.
Proof. reflexivity. Qed.

Lemma IEEE_GAS_FRICTION : @constants.GAS_FRICTION (IEEE m) = 0.95.
Proof. reflexivity. Qed.

Lemma IEEE_MIN_TIME : @constants.MIN_TIME (IEEE m) = 0.1.
Proof. reflexivity. Qed.

Lemma IEEE_kernel_term_50 (i : Z) : @kernel_term (IEEE m) 50 i = term_50 m i.
Proof. reflexivity. Qed.

End IEEEConstants.

(** ** Soundness of the enclosures *)

Module enclosure_facts.
Import enclosure.

Section Soundness.
Open Scope R_scope.
















End Soundness.

End enclosure_facts.

(** ** The enclosure of the kernel's sum at 47.5 is sound *)

Module gas_kernel_facts.
Import enclosure enclosure_facts gas_kernel.

Section Soundness.
Open Scope R_scope.
















End Soundness.

End gas_kernel_facts.

(** ** The kernel of [PolyGasCar] in exact arithmetic *)

Section ExactKernel.
Open Scope R_scope.






End ExactKernel.

(** ** Braking in exact arithmetic *)

Section ExactBrake.
Open Scope R_scope.




End ExactBrake.

(** ** Not-a-number in binary64 *)

Section NaNFacts.
Open Scope float_scope.

Lemma float_add_nan_l (x : float) : nan + x = nan.
Proof. apply Prim2SF_inj. rewrite add_spec. reflexivity. Qed.

Lemma float_add_nan_r (x : float) : x + nan = nan.
Proof.
  apply Prim2SF_inj. rewrite add_spec.
  change (Prim2SF nan) with S754_nan.
  by destruct (Prim2SF x) as [[|]|[|]| |].
Qed.

Lemma float_mul_nan_r (x : float) : x * nan = nan.
Proof.
  apply Prim2SF_inj. rewrite mul_spec.
  change (Prim2SF nan) with S754_nan.
  by destruct (Prim2SF x) as [[|]|[|]| |].
Qed.

(** A speed below zero, or no number: the square root in the kernel's
    first term, [sqrt(speed + 0)], is not a number. *)
Lemma float_sqrt_negative (x : float) :
  (x <? 0) = true \/ x = nan -> PrimFloat.sqrt (x + 0) = nan.
Proof.
  intros [Hlt | ->]; [|reflexivity].
  apply Prim2SF_inj. rewrite sqrt_spec, add_spec.
  rewrite ltb_spec in Hlt. change (Prim2SF 0) with (S754_zero false) in *.
  destruct (Prim2SF x) as [[|]|[|]| |[|] mx ex]; simpl in Hlt; try discriminate; reflexivity.
Qed.

Lemma float_plus_zero (x : float) : x + 0 = x \/ (x = -0 /\ x + 0 = 0).
Proof.
  destruct (Prim2SF x) as [[|]| | |] eqn:E.
  - right. assert (Hx : x = -0).
    { rewrite <- (SF2Prim_Prim2SF x). rewrite E. reflexivity. }
    split; [done|]. rewrite Hx. reflexivity.
  - left. apply Prim2SF_inj. rewrite add_spec, E. reflexivity.
  - left. apply Prim2SF_inj. rewrite add_spec, E. reflexivity.
  - left. apply Prim2SF_inj. rewrite add_spec, E. reflexivity.
  - left. apply Prim2SF_inj. rewrite add_spec, E. reflexivity.
Qed.

Lemma float_plus_zero_equal (x : float) : double_equal (x + 0) x.
Proof.
  destruct (float_plus_zero x) as [->|[-> ->]]; [by left|by right].
Qed.

Lemma sum_from_cons {D : Double} (work x : double) (l : list double) :
  sum_from work (x :: l) = sum_from (work + x)%D l.
Proof. reflexivity. Qed.

Lemma sum_from_nan (m : Libm) (l : list float) : sum_from (D := IEEE m) nan l = nan.
Proof.
  induction l as [|x l IH]; [done|].
  etransitivity; [apply (sum_from_cons (D := IEEE m))|].
  change (@dadd (IEEE m) nan x) with (nan + x). by rewrite float_add_nan_l.
Qed.

Lemma kernel_sum_nan_work (m : Libm) (speed : float) :
  kernel_sum (D := IEEE m) speed nan = nan.
Proof. apply sum_from_nan. Qed.

Lemma kernel_sum_negative_speed (m : Libm) (speed work : float) :
  (speed <? 0) = true \/ speed = nan ->
  kernel_sum (D := IEEE m) speed work = nan.
Proof.
  intros Hspeed. unfold kernel_sum, kernel_indices, constants.VECTOR_SIZE.
  rewrite (seqZ_cons 0) by done. rewrite fmap_cons.
  etransitivity; [apply (sum_from_cons (D := IEEE m))|].
  assert (Hterm : kernel_term (D := IEEE m) speed 0 = nan).
  { change (kernel_term (D := IEEE m) speed 0)
      with (libm_sin m (speed * 0) * libm_cos m (0 * 0.5) * libm_tan m speed
            * PrimFloat.sqrt (speed + 0)).
    rewrite float_sqrt_negative by done. apply float_mul_nan_r. }
  rewrite Hterm. change (@dadd (IEEE m) work nan) with (work + nan).
  rewrite float_add_nan_r. apply sum_from_nan.
Qed.

End NaNFacts.

(** ** The kernel on a buffer longer than it needs *)

Section FrameFacts.
Context {D : Double}.

Lemma doAcceleration_frame (speed work : double) (cs : list double) :
  Z.to_nat constants.VECTOR_SIZE <= length cs ->
  impl.doAcceleration speed work cs
  = Some (kernel_sum speed work,
          kernel_buffer speed ++ drop (Z.to_nat constants.VECTOR_SIZE) cs).
Proof.
  intros Hlen. unfold impl.doAcceleration, for_loop.
  destruct (kernel_loop speed (Z.to_nat (constants.VECTOR_SIZE - 0)) 0 work cs)
    as (cs' & Hrun & Hlen' & Hin & Hout); [lia | lia |].
  rewrite Hrun. unfold kernel_sum, kernel_indices.
  rewrite Z2Nat.id by done. rewrite Z.sub_0_r. do 2 f_equal.
  apply list_eq. intros k.
  destruct (decide (k < Z.to_nat constants.VECTOR_SIZE)) as [Hk|Hk].
  - rewrite lookup_app_l by (rewrite kernel_buffer_length; lia).
    unfold kernel_buffer, kernel_indices. rewrite list_lookup_fmap.
    rewrite <- (Nat2Z.id k) at 1. rewrite Hin by lia.
    rewrite lookup_seqZ_lt by lia. done.
  - rewrite Hout by lia.
    rewrite lookup_app_r by (rewrite kernel_buffer_length; lia).
    rewrite kernel_buffer_length, lookup_drop. f_equal. lia.
Qed.

End FrameFacts.

(** ** Not-a-number in the objects *)

Section NaNObjects.
Variable m : Libm.
Open Scope float_scope.

Lemma ElectricSportsCar_nan_run (calls : list call) (e : ElectricSportsCar.t (D := IEEE m)) :
  sized (ElectricSportsCar.calculations e) -> ElectricSportsCar.work e = nan ->
  exists e', run_calls ElectricSportsCar.accelerate ElectricSportsCar.brake calls e = Some e'
             /\ ElectricSportsCar.work e' = nan.
Proof.
  intros Hs Hw.
  destruct (run_calls_invariant ElectricSportsCar.accelerate ElectricSportsCar.brake
              (fun x : ElectricSportsCar.t (D := IEEE m) => sized (ElectricSportsCar.calculations x)
                        /\ ElectricSportsCar.work x = nan)) with (cs := calls) (x := e)
    as (e' & Hrun & _ & Hw'); [| |done|by exists e'].
  - intros x s [Hx Hxw]. eexists. split; [by apply ElectricSportsCar_accelerate_run|].
    split; [apply kernel_buffer_length|]. cbn [ElectricSportsCar.work].
    rewrite Hxw. apply kernel_sum_nan_work.
  - intros x [Hx Hxw]. done.
Qed.

Lemma GasSportsCar_nan_run (calls : list call) (g : GasSportsCar.t (D := IEEE m)) :
  sized (GasSportsCar.calculations g) -> GasSportsCar.work g = nan ->
  exists g', run_calls GasSportsCar.accelerate GasSportsCar.brake calls g = Some g'
             /\ GasSportsCar.work g' = nan.
Proof.
  intros Hs Hw.
  destruct (run_calls_invariant GasSportsCar.accelerate GasSportsCar.brake
              (fun x : GasSportsCar.t (D := IEEE m) => sized (GasSportsCar.calculations x)
                        /\ GasSportsCar.work x = nan)) with (cs := calls) (x := g)
    as (g' & Hrun & _ & Hw'); [| |done|by exists g'].
  - intros x s [Hx Hxw]. eexists. split; [by apply GasSportsCar_accelerate_run|].
    split; [apply kernel_buffer_length|]. cbn [GasSportsCar.work].
    rewrite Hxw. apply kernel_sum_nan_work.
  - intros x [Hx Hxw]. done.
Qed.

Lemma Vehicle_nan_run (calls : list call) (v : Vehicle.t (D := IEEE m)) :
  sized (PolyVehicle.calculations (Vehicle.object v)) ->
  PolyVehicle.work (Vehicle.object v) = nan ->
  exists v', run_calls Vehicle.accelerate Vehicle.brake calls v = Some v'
             /\ PolyVehicle.work (Vehicle.object v') = nan.
Proof.
  intros Hs Hw.
  destruct (run_calls_invariant Vehicle.accelerate Vehicle.brake
              (fun x : Vehicle.t (D := IEEE m) => sized (PolyVehicle.calculations (Vehicle.object x))
                        /\ PolyVehicle.work (Vehicle.object x) = nan)) with (cs := calls) (x := v)
    as (v' & Hrun & _ & Hw'); [| |done|by exists v'].
  - intros x s [Hx Hxw].
    destruct (Vehicle_accelerate_run x s Hx) as (p & Hrun & _ & Hwork & Hbuf).
    eexists. split; [exact Hrun|].
    assert (Hobj : Vehicle.object (match x with
                                   | Vehicle.Electric _ => Vehicle.Electric p
                                   | Vehicle.Gas _ => Vehicle.Gas p
                                   end) = p) by (by destruct x).
    rewrite Hobj. split.
    + unfold sized. rewrite Hbuf. apply kernel_buffer_length.
    + rewrite Hwork, Hxw. apply kernel_sum_nan_work.
  - intros [p|p] [Hx Hxw]; cbn [Vehicle.object Vehicle.brake] in *.
    + split; [exact Hx|]. cbn [PolyElectricCar.brake PolyVehicle.work].
      rewrite Hxw. apply float_add_nan_l.
    + split; [exact Hx | exact Hxw].
Qed.

End NaNObjects.

(** ** [PolyGasCar] beside [GasSportsCar] *)

Section StrategyFacts.
Context {D : Double}.

Lemma same_gas_state_run (calls : list call) : forall g v,
  same_gas_state g v ->
  option_Forall2 same_gas_state
    (run_calls GasSportsCar.accelerate GasSportsCar.brake
       (scale_call constants.GAS_FRICTION <$> calls) g)
    (run_calls Vehicle.accelerate Vehicle.brake calls v).
Proof.
  induction calls as [|c calls IH]; intros g v Hgv; [by constructor|].
  destruct v as [p|p]; [done|]. destruct Hgv as (Hs & Hw & Hc).
  destruct c as [s|]; cbn [fmap list_fmap scale_call run_calls do_call].
  - cbn [Vehicle.accelerate]. unfold PolyGasCar.accelerate, PolyVehicle.accelerate,
      GasSportsCar.accelerate, PolyGasCar.getFriction.
    rewrite Hs, Hw, Hc.
    destruct (impl.doAcceleration _ _ _) as [[w cs]|]; cbn; [|constructor].
    apply IH. done.
  - cbn [mbind option_bind]. apply IH. done.
Qed.

End StrategyFacts.

(** ** The measured loops in closed form *)

Section IterateFacts.
Context {S X : Type}.

Lemma iterate_add (step : X -> X) (a b : nat) : forall x,
  iterate step x (a + b) = iterate step (iterate step x a) b.
Proof. induction a as [|a IH]; intros x; [done|]. cbn [Nat.add iterate]. apply IH. Qed.

Lemma iterate_mul (step : X -> X) (a b : nat) : forall x,
  iterate (fun y => iterate step y a) x b = iterate step x (b * a).
Proof.
  induction b as [|b IH]; intros x; [done|].
  cbn [iterate Nat.mul]. rewrite IH, iterate_add. done.
Qed.

Lemma repeat_times_iterate (P : X -> S -> Prop) (f : S -> option S) (step : X -> X) :
  (forall x s, P x s -> exists s', f s = Some s' /\ P (step x) s') ->
  forall k x s, P x s -> exists s', repeat_times k f s = Some s' /\ P (iterate step x k) s'.
Proof.
  intros Hstep k. induction k as [|k IH]; intros x s HP.
  - exists s. done.
  - destruct (Hstep x s HP) as (s' & Hf & HP').
    cbn [repeat_times iterate]. rewrite Hf. cbn [mbind option_bind]. by apply IH.
Qed.

End IterateFacts.

Section BenchmarkFacts.
Variable m : Libm.
Open Scope float_scope.

Lemma IEEE_speed_50 : @dadd (IEEE m) 0 (dlit 50.0) = 50.
Proof. reflexivity. Qed.

Lemma IEEE_speed_electric :
  @dadd (IEEE m) 0 (@dmul (IEEE m) (dlit 50.0) constants.ELECTRIC_FRICTION) = 42.5.
Proof. reflexivity. Qed.

Lemma IEEE_speed_gas :
  @dadd (IEEE m) 0 (@dmul (IEEE m) (dlit 50.0) constants.GAS_FRICTION) = 47.5.
Proof. reflexivity. Qed.

Lemma IEEE_recovered : @dmul (IEEE m) 42.5 constants.ELECTRIC_FRICTION = 36.125.
Proof. reflexivity. Qed.

Lemma ConceptBased_init_at_rest : ConceptBased_at_rest m (0, 0) BM_ConceptBased.init.
Proof.
  unfold ConceptBased_at_rest. cbn [BM_ConceptBased.init BM_ConceptBased.tesla
    BM_ConceptBased.porsche BM_ConceptBased.total_work fst snd].
  split; [reflexivity|]. split; [reflexivity|].
  split; [apply ElectricSportsCar_new_length|].
  split; [reflexivity|]. split; [reflexivity|].
  split; [apply GasSportsCar_new_length|]. reflexivity.
Qed.

Lemma ConceptBased_repetition_step (wt : float * float) (st : BM_ConceptBased.locals) :
  ConceptBased_at_rest m wt st ->
  exists st', ConceptBased_repetition st = Some st'
              /\ ConceptBased_at_rest m (ConceptBased_step m wt) st'.
Proof.
  destruct st as [e g t], wt as [w t0].
  unfold ConceptBased_at_rest.
  cbn [BM_ConceptBased.tesla BM_ConceptBased.porsche BM_ConceptBased.total_work fst snd].
  intros (Hes & Hew & Hec & Hgs & Hgw & Hgc & ->).
  unfold ConceptBased_repetition, accelerate_account_brake.
  cbn [BM_ConceptBased.tesla BM_ConceptBased.porsche BM_ConceptBased.total_work].
  rewrite ElectricSportsCar_accelerate_run by done.
  rewrite GasSportsCar_accelerate_run by done.
  rewrite Hes, Hew, Hgs, Hgw, IEEE_speed_50.
  eexists. split; [reflexivity|].
  cbn [BM_ConceptBased.tesla BM_ConceptBased.porsche BM_ConceptBased.total_work
       ElectricSportsCar.brake GasSportsCar.brake ElectricSportsCar.speed
       ElectricSportsCar.work ElectricSportsCar.calculations GasSportsCar.speed
       GasSportsCar.work GasSportsCar.calculations ElectricSportsCar.getWork
       GasSportsCar.getWork ConceptBased_step fst snd].
  split; [reflexivity|]. split; [reflexivity|]. split; [apply kernel_buffer_length|].
  split; [reflexivity|]. split; [reflexivity|]. split; [apply kernel_buffer_length|].
  reflexivity.
Qed.

Lemma ConceptBased_run_closed_form (n : Z) :
  exists st, BM_ConceptBased.run n = Some st
             /\ ConceptBased_at_rest m
                  (iterate (ConceptBased_step m) (0, 0) (Z.to_nat n * 10)) st.
Proof.
  unfold BM_ConceptBased.run, state_loop, for_loop.
  rewrite (loop_from_repeat_times (fun _ => BM_ConceptBased.iteration (D := IEEE m))
             BM_ConceptBased.iteration) by done.
  rewrite Z.sub_0_r, <- iterate_mul.
  apply (repeat_times_iterate (ConceptBased_at_rest m)); [|apply ConceptBased_init_at_rest].
  intros wt st Hst. unfold BM_ConceptBased.iteration, for_loop.
  rewrite (loop_from_repeat_times BM_ConceptBased.inner ConceptBased_repetition)
    by apply ConceptBased_inner_repetition.
  change (Z.to_nat (constants.INNER_LOOP_COUNT - 0)) with 10%nat.
  apply (repeat_times_iterate (ConceptBased_at_rest m)); [|done].
  apply ConceptBased_repetition_step.
Qed.

Lemma Polymorphic_init_at_rest : Polymorphic_at_rest m (0, 0, 0) BM_Polymorphic.init.
Proof.
  exists PolyVehicle.new, PolyVehicle.new.
  cbn [BM_Polymorphic.init BM_Polymorphic.vehicles_0 BM_Polymorphic.vehicles_1
       BM_Polymorphic.total_work fst snd].
  split; [reflexivity|]. split; [reflexivity|].
  split; [reflexivity|]. split; [reflexivity|]. split; [apply (PolyVehicle_new_length (D := IEEE m))|].
  split; [reflexivity|]. split; [reflexivity|]. split; [apply (PolyVehicle_new_length (D := IEEE m))|].
  reflexivity.
Qed.

Lemma Polymorphic_repetition_step (wwt : float * float * float) (st : BM_Polymorphic.locals) :
  Polymorphic_at_rest m wwt st ->
  exists st', Polymorphic_repetition st = Some st'
              /\ Polymorphic_at_rest m (Polymorphic_step m wwt) st'.
Proof.
  destruct st as [v0 v1 t], wwt as [[we wg] t0].
  intros (pe & pg & Hv0 & Hv1 & Hes & Hew & Hec & Hgs & Hgw & Hgc & Ht).
  cbn [BM_Polymorphic.vehicles_0 BM_Polymorphic.vehicles_1 BM_Polymorphic.total_work
       fst snd] in *. subst v0 v1 t.
  unfold Polymorphic_repetition, accelerate_account_brake.
  cbn [BM_Polymorphic.vehicles_0 BM_Polymorphic.vehicles_1 BM_Polymorphic.total_work
       Vehicle.accelerate].
  unfold PolyElectricCar.accelerate, PolyGasCar.accelerate.
  rewrite !PolyVehicle_accelerate_run by done.
  unfold PolyElectricCar.getFriction, PolyGasCar.getFriction.
  rewrite Hes, Hew, Hgs, Hgw, IEEE_speed_electric, IEEE_speed_gas.
  eexists. split; [reflexivity|].
  eexists _, _.
  cbn [BM_Polymorphic.vehicles_0 BM_Polymorphic.vehicles_1 BM_Polymorphic.total_work
       Vehicle.brake Vehicle.object Polymorphic_step fst snd].
  split; [reflexivity|]. split; [reflexivity|].
  cbn [PolyElectricCar.brake PolyGasCar.brake PolyVehicle.speed PolyVehicle.work
       PolyVehicle.calculations PolyVehicle.getWork].
  rewrite IEEE_recovered.
  split; [reflexivity|]. split; [reflexivity|]. split; [apply kernel_buffer_length|].
  split; [reflexivity|]. split; [reflexivity|]. split; [apply kernel_buffer_length|].
  reflexivity.
Qed.

Lemma Polymorphic_run_closed_form (n : Z) :
  exists st, BM_Polymorphic.run n = Some st
             /\ Polymorphic_at_rest m
                  (iterate (Polymorphic_step m) (0, 0, 0) (Z.to_nat n * 10)) st.
Proof.
  unfold BM_Polymorphic.run, state_loop, for_loop.
  rewrite (loop_from_repeat_times (fun _ => BM_Polymorphic.iteration (D := IEEE m))
             BM_Polymorphic.iteration) by done.
  rewrite Z.sub_0_r, <- iterate_mul.
  apply (repeat_times_iterate (Polymorphic_at_rest m)); [|apply Polymorphic_init_at_rest].
  intros wt st Hst. unfold BM_Polymorphic.iteration, for_loop.
  rewrite (loop_from_repeat_times BM_Polymorphic.inner Polymorphic_repetition)
    by apply Polymorphic_inner_repetition.
  change (Z.to_nat (constants.INNER_LOOP_COUNT - 0)) with 10%nat.
  apply (repeat_times_iterate (Polymorphic_at_rest m)); [|done].
  apply Polymorphic_repetition_step.
Qed.

End BenchmarkFacts.

(** ** The report *)

Section ReportFacts.
Context {D : Double} {Dv : DoubleDiv D}.
Variable to_string : double -> string.

Lemma reportStats_counters (state : State.t) (total_work : double) :
  State.counters (reportStats to_string state total_work)
  = <["avg_work_per_iteration" :=
        Counter.of_double (ddiv total_work (of_int (State.iterations state)))]>
      (<["items_per_second" :=
           {| Counter.value := of_int (State.iterations state);
              Counter.flags := Counter.kIsRate |}]>
         (<["iterations" := Counter.of_double (of_int (State.iterations state))]>
            (State.counters state))).
Proof. reflexivity. Qed.

Lemma reportStats_overwrites (state : State.t) (total total' : double) :
  reportStats to_string (reportStats to_string state total) total'
  = reportStats to_string state total'.
Proof.
  unfold reportStats, State.set_counter, State.SetLabel.
  cbn [State.iterations State.counters State.label].
  f_equal. apply map_eq. intros k.
  destruct (decide (k = "avg_work_per_iteration"%string)) as [->|H1];
    [by rewrite !lookup_insert_eq|].
  rewrite !(lookup_insert_ne _ "avg_work_per_iteration"%string) by done.
  destruct (decide (k = "items_per_second"%string)) as [->|H2];
    [by rewrite !lookup_insert_eq|].
  rewrite !(lookup_insert_ne _ "items_per_second"%string) by done.
  destruct (decide (k = "iterations"%string)) as [->|H3];
    [by rewrite !lookup_insert_eq|].
  repeat (rewrite lookup_insert_ne by done). reflexivity.
Qed.

End ReportFacts.

(** ** What a call never changes *)

Section IdentityFacts.
Context {D : Double}.

Lemma ElectricSportsCar_run_labels (calls : list call) (b mo : string) :
  exists e,
    run_calls ElectricSportsCar.accelerate ElectricSportsCar.brake calls
      (ElectricSportsCar.new b mo) = Some e
    /\ ElectricSportsCar.getBrand e = b /\ ElectricSportsCar.getModel e = mo.
Proof.
  destruct (run_calls_invariant ElectricSportsCar.accelerate ElectricSportsCar.brake
              (fun x => sized (ElectricSportsCar.calculations x)
                        /\ ElectricSportsCar.brand x = b /\ ElectricSportsCar.model x = mo))
    with (cs := calls) (x := ElectricSportsCar.new b mo) as (e & Hrun & _ & Hb & Hm).
  - intros x s (Hx & Hb & Hm). eexists. split; [by apply ElectricSportsCar_accelerate_run|].
    split; [apply kernel_buffer_length|]. done.
  - intros x (Hx & Hb & Hm). done.
  - split; [apply ElectricSportsCar_new_length|done].
  - by exists e.
Qed.

Lemma GasSportsCar_run_labels (calls : list call) (b mo : string) :
  exists g,
    run_calls GasSportsCar.accelerate GasSportsCar.brake calls
      (GasSportsCar.new b mo) = Some g
    /\ GasSportsCar.getBrand g = b /\ GasSportsCar.getModel g = mo.
Proof.
  destruct (run_calls_invariant GasSportsCar.accelerate GasSportsCar.brake
              (fun x => sized (GasSportsCar.calculations x)
                        /\ GasSportsCar.brand x = b /\ GasSportsCar.model x = mo))
    with (cs := calls) (x := GasSportsCar.new b mo) as (g & Hrun & _ & Hb & Hm).
  - intros x s (Hx & Hb & Hm). eexists. split; [by apply GasSportsCar_accelerate_run|].
    split; [apply kernel_buffer_length|]. done.
  - intros x (Hx & Hb & Hm). done.
  - split; [apply GasSportsCar_new_length|done].
  - by exists g.
Qed.

Lemma Vehicle_run_friction (calls : list call) (v : Vehicle.t) :
  sized (PolyVehicle.calculations (Vehicle.object v)) ->
  exists v',
    run_calls Vehicle.accelerate Vehicle.brake calls v = Some v'
    /\ Vehicle.getFriction v' = Vehicle.getFriction v
    /\ (match v, v' with
        | Vehicle.Electric _, Vehicle.Electric _ | Vehicle.Gas _, Vehicle.Gas _ => True
        | _, _ => False
        end).
Proof.
  intros Hv.
  destruct (run_calls_invariant Vehicle.accelerate Vehicle.brake
              (fun x => sized (PolyVehicle.calculations (Vehicle.object x))
                        /\ Vehicle.getFriction x = Vehicle.getFriction v
                        /\ (match v, x with
                            | Vehicle.Electric _, Vehicle.Electric _
                            | Vehicle.Gas _, Vehicle.Gas _ => True
                            | _, _ => False
                            end)))
    with (cs := calls) (x := v) as (v' & Hrun & _ & Hf & Ht).
  - intros x s (Hx & Hf & Ht).
    destruct (Vehicle_accelerate_run x s Hx) as (p & Hrun & _ & _ & Hbuf).
    eexists. split; [exact Hrun|].
    destruct x; cbn [Vehicle.object]; (split; [unfold sized; rewrite Hbuf; apply kernel_buffer_length|]);
      done.
  - intros x (Hx & Hf & Ht). destruct x; done.
  - split; [done|]. split; [done|]. by destruct v.
  - by exists v'.
Qed.

End IdentityFacts.

(** ** [PolyGasCar] through the whole benchmark, in exact arithmetic *)

Section ExactBenchmark.
Open Scope R_scope.



End ExactBenchmark.

(** ** [PolyGasCar] through the measured loop, in exact arithmetic *)

Section ExactRun.
Open Scope R_scope.





End ExactRun.

(** * The claims *)

(** C1: for a generic-dispatch vehicle of either class, [accelerate(s)]
    adds [s] to [speed] and runs the kernel at the new speed: the buffer
    then holds [sin(speed*i) * cos(i*0.5) * tan(speed)] at every index
    [i] of 0..9999 and [work] has gained the terms
    [calculations[i] * sqrt(speed + i)] in index order.  In binary64,
    whatever libm computes, a fresh [ElectricSportsCar] after one
    [accelerate(50.0)] has [getWork()] equal to the sum of
    [sin(50*i)*cos(i*0.5)*tan(50)*sqrt(50+i)] over i = 0..9999, added up
    from [0.0] in index order. *)
Theorem generic_accelerate_closed_form :
  (forall (D : Double) (e : ElectricSportsCar.t) (s : double),
     length (ElectricSportsCar.calculations e) = Z.to_nat constants.VECTOR_SIZE ->
     ElectricSportsCar.accelerate e s
     = Some {| ElectricSportsCar.speed := (ElectricSportsCar.speed e + s)%D;
               ElectricSportsCar.work :=
                 kernel_sum (ElectricSportsCar.speed e + s)%D (ElectricSportsCar.work e);
               ElectricSportsCar.calculations :=
                 kernel_buffer (ElectricSportsCar.speed e + s)%D;
               ElectricSportsCar.brand := ElectricSportsCar.brand e;
               ElectricSportsCar.model := ElectricSportsCar.model e |})
  /\ (forall (D : Double) (g : GasSportsCar.t) (s : double),
     length (GasSportsCar.calculations g) = Z.to_nat constants.VECTOR_SIZE ->
     GasSportsCar.accelerate g s
     = Some {| GasSportsCar.speed := (GasSportsCar.speed g + s)%D;
               GasSportsCar.work :=
                 kernel_sum (GasSportsCar.speed g + s)%D (GasSportsCar.work g);
               GasSportsCar.calculations := kernel_buffer (GasSportsCar.speed g + s)%D;
               GasSportsCar.brand := GasSportsCar.brand g;
               GasSportsCar.model := GasSportsCar.model g |})
  /\ (forall (m : Libm) (b mo : string),
     @ElectricSportsCar.getWork (IEEE m)
       <$> ElectricSportsCar.accelerate (ElectricSportsCar.new b mo) constants.ACCELERATION_VALUE
     = Some (fold_left PrimFloat.add (term_50 m <$> seqZ 0 10000) 0%float)).
Proof.
  split; [|split].
  - intros D e s. apply ElectricSportsCar_accelerate_run.
  - intros D g s. apply GasSportsCar_accelerate_run.
  - intros m b mo.
    rewrite ElectricSportsCar_accelerate_run by apply ElectricSportsCar_new_length.
    reflexivity.
Qed.

(** The first two parts of C1 have a hypothesis on the buffer: a fresh
    car of each class meets it, here in exact arithmetic. *)
Lemma generic_accelerate_closed_form_witness :
  (exists e, @ElectricSportsCar.accelerate Exact (ElectricSportsCar.new "Tesla" "Model S") 50%R = Some e
             /\ ElectricSportsCar.speed e = (Q2R 0.0 + 50)%R)
  /\ (exists g, @GasSportsCar.accelerate Exact (GasSportsCar.new "Porsche" "911") 50%R = Some g
             /\ GasSportsCar.speed g = (Q2R 0.0 + 50)%R).
Proof.
  split.
  - eexists. split.
    + apply (proj1 generic_accelerate_closed_form Exact).
      apply ElectricSportsCar_new_length.
    + reflexivity.
  - eexists. split.
    + apply (proj1 (proj2 generic_accelerate_closed_form) Exact).
      apply GasSportsCar_new_length.
    + reflexivity.
Defined.

(** C2: through [Vehicle*], [accelerate(s)] adds [s * getFriction()] to
    [speed], with [getFriction()] 0.85 for [PolyElectricCar] and 0.95 for
    [PolyGasCar], and runs the kernel at that scaled speed;
    [getCurrentSpeed()] returns it.  In binary64, from a fresh object,
    [getCurrentSpeed()] after one [accelerate(s)] is [0.0 + s * friction],
    which equals [s * friction]; at [s = 50.0] that is 42.5 and 47.5, not
    50. *)
Theorem poly_accelerate_friction_scaled :
  (forall (D : Double) (v : Vehicle.t) (s : double),
     length (PolyVehicle.calculations (Vehicle.object v)) = Z.to_nat constants.VECTOR_SIZE ->
     exists p,
       Vehicle.accelerate v s
       = Some (match v with
               | Vehicle.Electric _ => Vehicle.Electric p
               | Vehicle.Gas _ => Vehicle.Gas p
               end)
       /\ PolyVehicle.getCurrentSpeed p
          = (Vehicle.getCurrentSpeed v + s * Vehicle.getFriction v)%D
       /\ PolyVehicle.getWork p
          = kernel_sum (Vehicle.getCurrentSpeed v + s * Vehicle.getFriction v)%D
              (PolyVehicle.getWork (Vehicle.object v))
       /\ PolyVehicle.calculations p
          = kernel_buffer (Vehicle.getCurrentSpeed v + s * Vehicle.getFriction v)%D)
  /\ (forall (m : Libm) (p : @PolyVehicle.t (IEEE m)),
       Vehicle.getFriction (Vehicle.Electric p) = 0.85%float
       /\ Vehicle.getFriction (Vehicle.Gas p) = 0.95%float)
  /\ (forall (m : Libm) (s : float),
       @Vehicle.getCurrentSpeed (IEEE m)
         <$> Vehicle.accelerate (D := IEEE m) (Vehicle.Electric PolyVehicle.new) s
       = Some (0 + s * 0.85)%float
       /\ @Vehicle.getCurrentSpeed (IEEE m)
         <$> Vehicle.accelerate (D := IEEE m) (Vehicle.Gas PolyVehicle.new) s
       = Some (0 + s * 0.95)%float
       /\ double_equal (0 + s * 0.85) (s * 0.85)
       /\ double_equal (0 + s * 0.95) (s * 0.95))
  /\ (forall (m : Libm),
       @Vehicle.getCurrentSpeed (IEEE m)
         <$> Vehicle.accelerate (D := IEEE m) (Vehicle.Electric PolyVehicle.new) constants.ACCELERATION_VALUE
       = Some 42.5%float
       /\ @Vehicle.getCurrentSpeed (IEEE m)
         <$> Vehicle.accelerate (D := IEEE m) (Vehicle.Gas PolyVehicle.new) constants.ACCELERATION_VALUE
       = Some 47.5%float
       /\ (42.5 =? 50)%float = false
       /\ (47.5 =? 50)%float = false).
Proof.
  split; [|split; [|split]].
  - intros D v s Hlen. apply Vehicle_accelerate_run, Hlen.
  - intros m p. split; reflexivity.
  - intros m s. split; [|split; [|split]].
    + destruct (@Vehicle_accelerate_run (IEEE m) (Vehicle.Electric PolyVehicle.new) s)
        as (p & -> & Hspeed & _); [apply PolyVehicle_new_length|].
      simpl. unfold Vehicle.getCurrentSpeed. simpl. f_equal. exact Hspeed.
    + destruct (@Vehicle_accelerate_run (IEEE m) (Vehicle.Gas PolyVehicle.new) s)
        as (p & -> & Hspeed & _); [apply PolyVehicle_new_length|].
      simpl. unfold Vehicle.getCurrentSpeed. simpl. f_equal. exact Hspeed.
    + apply float_zero_plus_equal.
    + apply float_zero_plus_equal.
  - intros m. split; [|split; [|split]].
    + destruct (@Vehicle_accelerate_run (IEEE m) (Vehicle.Electric PolyVehicle.new)
                  constants.ACCELERATION_VALUE)
        as (p & -> & Hspeed & _); [apply PolyVehicle_new_length|].
      simpl. unfold Vehicle.getCurrentSpeed. simpl. f_equal. exact Hspeed.
    + destruct (@Vehicle_accelerate_run (IEEE m) (Vehicle.Gas PolyVehicle.new)
                  constants.ACCELERATION_VALUE)
        as (p & -> & Hspeed & _); [apply PolyVehicle_new_length|].
      simpl. unfold Vehicle.getCurrentSpeed. simpl. f_equal. exact Hspeed.
    + reflexivity.
    + reflexivity.
Qed.

(** A fresh object of each dynamic type meets the hypothesis of C2. *)
Lemma poly_accelerate_friction_scaled_witness :
  (exists p, @Vehicle.accelerate Exact (Vehicle.Electric PolyVehicle.new) 50%R
             = Some (Vehicle.Electric p)
             /\ PolyVehicle.getCurrentSpeed p = (Q2R 0.0 + 50 * Q2R 0.85)%R)
  /\ (exists p, @Vehicle.accelerate Exact (Vehicle.Gas PolyVehicle.new) 50%R
             = Some (Vehicle.Gas p)
             /\ PolyVehicle.getCurrentSpeed p = (Q2R 0.0 + 50 * Q2R 0.95)%R).
Proof.
  split.
  - destruct (proj1 poly_accelerate_friction_scaled Exact
                (Vehicle.Electric PolyVehicle.new) 50%R PolyVehicle_new_length)
      as (p & Hrun & Hspeed & _).
    exists p. split; [exact Hrun | exact Hspeed].
  - destruct (proj1 poly_accelerate_friction_scaled Exact
                (Vehicle.Gas PolyVehicle.new) 50%R PolyVehicle_new_length)
      as (p & Hrun & Hspeed & _).
    exists p. split; [exact Hrun | exact Hspeed].
Defined.

(** C3: [PolyElectricCar::brake()] adds [speed * ELECTRIC_FRICTION] to
    [work] and sets [speed] to 0; [PolyGasCar::brake()] sets [speed] to 0
    and leaves [work] as it was; neither touches the buffer, and
    [getCurrentSpeed()] right after [brake()] is 0.  In binary64 the
    coefficient is 0.85 and the speed is [+0.0]. *)
Theorem poly_brake_policy :
  (forall (D : Double) (p : PolyVehicle.t),
     PolyVehicle.getWork (PolyElectricCar.brake p)
     = (PolyVehicle.getWork p + PolyVehicle.getCurrentSpeed p * constants.ELECTRIC_FRICTION)%D
     /\ PolyVehicle.getWork (PolyGasCar.brake p) = PolyVehicle.getWork p
     /\ PolyVehicle.calculations (PolyElectricCar.brake p) = PolyVehicle.calculations p
     /\ PolyVehicle.calculations (PolyGasCar.brake p) = PolyVehicle.calculations p
     /\ Vehicle.getCurrentSpeed (Vehicle.brake (Vehicle.Electric p)) = of_int 0
     /\ Vehicle.getCurrentSpeed (Vehicle.brake (Vehicle.Gas p)) = of_int 0)
  /\ (forall (m : Libm) (p : @PolyVehicle.t (IEEE m)),
     PolyVehicle.getWork (PolyElectricCar.brake p)
     = (PolyVehicle.getWork p + PolyVehicle.getCurrentSpeed p * 0.85)%float
     /\ PolyVehicle.getWork (PolyGasCar.brake p) = PolyVehicle.getWork p
     /\ Vehicle.getCurrentSpeed (Vehicle.brake (Vehicle.Electric p)) = 0%float
     /\ Vehicle.getCurrentSpeed (Vehicle.brake (Vehicle.Gas p)) = 0%float).
Proof.
  split.
  - intros D p. repeat split.
  - intros m p. repeat split.
Qed.

(** C10: for both generic-dispatch classes [brake()] writes [speed]
    only, setting it to 0: [work], the buffer, [brand] and [model] are
    the same object fields before and after, so [getWork()],
    [getBrand()] and [getModel()] return what they returned before. *)
Theorem generic_brake_frame :
  forall (D : Double) (e : ElectricSportsCar.t) (g : GasSportsCar.t),
    (ElectricSportsCar.speed (ElectricSportsCar.brake e) = of_int 0
     /\ ElectricSportsCar.work (ElectricSportsCar.brake e) = ElectricSportsCar.work e
     /\ ElectricSportsCar.calculations (ElectricSportsCar.brake e)
        = ElectricSportsCar.calculations e
     /\ ElectricSportsCar.brand (ElectricSportsCar.brake e) = ElectricSportsCar.brand e
     /\ ElectricSportsCar.model (ElectricSportsCar.brake e) = ElectricSportsCar.model e
     /\ getWork (brake e) = getWork e
     /\ getBrand (brake e) = getBrand e
     /\ getModel (brake e) = getModel e)
    /\ (GasSportsCar.speed (GasSportsCar.brake g) = of_int 0
     /\ GasSportsCar.work (GasSportsCar.brake g) = GasSportsCar.work g
     /\ GasSportsCar.calculations (GasSportsCar.brake g) = GasSportsCar.calculations g
     /\ GasSportsCar.brand (GasSportsCar.brake g) = GasSportsCar.brand g
     /\ GasSportsCar.model (GasSportsCar.brake g) = GasSportsCar.model g
     /\ getWork (brake g) = getWork g
     /\ getBrand (brake g) = getBrand g
     /\ getModel (brake g) = getModel g).
Proof. intros D e g. repeat split. Qed.

(** C7: an object of either dispatch strategy is built with a buffer of
    [VECTOR_SIZE] = 10000 elements, and after any sequence of
    [accelerate] and [brake] calls the buffer still has that length;
    every call of the sequence returns, that is, every element the kernel
    stores or reads lies inside the buffer.  The kernel itself never
    changes the length of the buffer it is given, and runs out of it
    exactly when it is shorter than 10000. *)
Theorem buffer_length_invariant :
  forall (D : Double) (calls : list call),
    (forall b m, exists e,
        run_calls ElectricSportsCar.accelerate ElectricSportsCar.brake calls
          (ElectricSportsCar.new b m) = Some e
        /\ length (ElectricSportsCar.calculations e) = 10000)
    /\ (forall b m, exists g,
        run_calls GasSportsCar.accelerate GasSportsCar.brake calls
          (GasSportsCar.new b m) = Some g
        /\ length (GasSportsCar.calculations g) = 10000)
    /\ (exists v,
        run_calls Vehicle.accelerate Vehicle.brake calls (Vehicle.Electric PolyVehicle.new)
        = Some v
        /\ length (PolyVehicle.calculations (Vehicle.object v)) = 10000)
    /\ (exists v,
        run_calls Vehicle.accelerate Vehicle.brake calls (Vehicle.Gas PolyVehicle.new)
        = Some v
        /\ length (PolyVehicle.calculations (Vehicle.object v)) = 10000)
    /\ (forall speed work cs,
        match impl.doAcceleration speed work cs with
        | Some (_, cs') => length cs' = length cs /\ 10000 <= length cs
        | None => length cs < 10000
        end).
Proof.
  intros D calls.
  assert (HN : Z.to_nat constants.VECTOR_SIZE = 10000) by reflexivity.
  rewrite <- HN. clear HN. split; [|split; [|split; [|split]]].
  - intros b m. apply ElectricSportsCar_run_sized, ElectricSportsCar_new_length.
  - intros b m. apply GasSportsCar_run_sized, GasSportsCar_new_length.
  - apply Vehicle_run_sized, PolyVehicle_new_length.
  - apply Vehicle_run_sized, PolyVehicle_new_length.
  - apply doAcceleration_length.
Qed.

(** C5: the generic-dispatch computation is a function of its inputs.
    Two [ElectricSportsCar]s (or two [GasSportsCar]s) that start with the
    same [speed] and [work] and a buffer of the constructed length return
    the same [getWork()] after [n] calls of [accelerate(s)] with the same
    [s], whatever their buffers held and whatever they are labelled; the
    value is [work_after s speed work n], in which nothing but [n], [s],
    [speed] and [work] occurs. *)
Theorem generic_accelerate_deterministic :
  forall (D : Double) (n : nat) (s : double),
    (forall e1 e2 : ElectricSportsCar.t,
       ElectricSportsCar.speed e1 = ElectricSportsCar.speed e2 ->
       ElectricSportsCar.work e1 = ElectricSportsCar.work e2 ->
       sized (ElectricSportsCar.calculations e1) ->
       sized (ElectricSportsCar.calculations e2) ->
       exists w,
         w = work_after s (ElectricSportsCar.speed e1) (ElectricSportsCar.work e1) n
         /\ getWork <$> run_calls accelerate brake (replicate n (Accelerate s)) e1 = Some w
         /\ getWork <$> run_calls accelerate brake (replicate n (Accelerate s)) e2 = Some w)
    /\ (forall g1 g2 : GasSportsCar.t,
       GasSportsCar.speed g1 = GasSportsCar.speed g2 ->
       GasSportsCar.work g1 = GasSportsCar.work g2 ->
       sized (GasSportsCar.calculations g1) ->
       sized (GasSportsCar.calculations g2) ->
       exists w,
         w = work_after s (GasSportsCar.speed g1) (GasSportsCar.work g1) n
         /\ getWork <$> run_calls accelerate brake (replicate n (Accelerate s)) g1 = Some w
         /\ getWork <$> run_calls accelerate brake (replicate n (Accelerate s)) g2 = Some w).
Proof.
  intros D n s. split.
  - intros e1 e2 Hs Hw H1 H2. eexists. split; [reflexivity|]. split.
    + by apply ElectricSportsCar_repeat_accelerate.
    + rewrite Hs, Hw. by apply ElectricSportsCar_repeat_accelerate.
  - intros g1 g2 Hs Hw H1 H2. eexists. split; [reflexivity|]. split.
    + by apply GasSportsCar_repeat_accelerate.
    + rewrite Hs, Hw. by apply GasSportsCar_repeat_accelerate.
Qed.

(** Two runs of three calls from freshly built cars meet the hypotheses
    of C5. *)
Lemma generic_accelerate_deterministic_witness :
  (exists w : R,
     ElectricSportsCar.getWork (D := Exact)
       <$> run_calls ElectricSportsCar.accelerate ElectricSportsCar.brake
             (replicate 3 (Accelerate constants.ACCELERATION_VALUE))
             (ElectricSportsCar.new "Tesla" "Model S") = Some w
     /\ ElectricSportsCar.getWork (D := Exact)
       <$> run_calls ElectricSportsCar.accelerate ElectricSportsCar.brake
             (replicate 3 (Accelerate constants.ACCELERATION_VALUE))
             (ElectricSportsCar.new "Tesla" "Roadster") = Some w)
  /\ (exists w : R,
     GasSportsCar.getWork (D := Exact)
       <$> run_calls GasSportsCar.accelerate GasSportsCar.brake
             (replicate 3 (Accelerate constants.ACCELERATION_VALUE))
             (GasSportsCar.new "Porsche" "911") = Some w
     /\ GasSportsCar.getWork (D := Exact)
       <$> run_calls GasSportsCar.accelerate GasSportsCar.brake
             (replicate 3 (Accelerate constants.ACCELERATION_VALUE))
             (GasSportsCar.new "Porsche" "718") = Some w).
Proof.
  split.
  - destruct (proj1 (generic_accelerate_deterministic Exact 3 constants.ACCELERATION_VALUE)
                (ElectricSportsCar.new "Tesla" "Model S")
                (ElectricSportsCar.new "Tesla" "Roadster")
                eq_refl eq_refl
                (ElectricSportsCar_new_length _ _) (ElectricSportsCar_new_length _ _))
      as (w & _ & H1 & H2).
    exists w. split; [exact H1 | exact H2].
  - destruct (proj2 (generic_accelerate_deterministic Exact 3 constants.ACCELERATION_VALUE)
                (GasSportsCar.new "Porsche" "911")
                (GasSportsCar.new "Porsche" "718")
                eq_refl eq_refl
                (GasSportsCar_new_length _ _) (GasSportsCar_new_length _ _))
      as (w & _ & H1 & H2).
    exists w. split; [exact H1 | exact H2].
Defined.

(** C8: [ElectricSportsCar] and [GasSportsCar] behave alike.  On objects
    with the same [speed], [work] and buffer, [accelerate(s)] of the one
    and of the other end in objects with the same [speed], [work] and
    buffer again (or both run out of the buffer), so do the two
    [brake()]s, and the two [getWork()]s return the same value; hence
    from freshly built cars, whatever their labels, every sequence of
    [accelerate]/[brake] calls leaves both with equal [speed], equal
    [work] and equal [getWork()]. *)
Theorem generic_variants_equivalent :
  forall (D : Double),
    (forall (e : ElectricSportsCar.t) (g : GasSportsCar.t) (s : double),
       same_state e g ->
       option_Forall2 same_state (accelerate e s) (accelerate g s)
       /\ same_state (brake e) (brake g)
       /\ getWork e = getWork g)
    /\ (forall (calls : list call) (b m b' m' : string),
       exists e g,
         run_calls accelerate brake calls (ElectricSportsCar.new b m) = Some e
         /\ run_calls accelerate brake calls (GasSportsCar.new b' m') = Some g
         /\ ElectricSportsCar.speed e = GasSportsCar.speed g
         /\ ElectricSportsCar.work e = GasSportsCar.work g
         /\ getWork e = getWork g).
Proof.
  intros D. split.
  - intros e g s Heg. split; [|split].
    + by apply same_state_accelerate.
    + by apply same_state_brake.
    + apply Heg.
  - intros calls b m b' m'.
    destruct (ElectricSportsCar_run_sized calls (ElectricSportsCar.new b m)
                (ElectricSportsCar_new_length b m)) as (e & He & _).
    pose proof (same_state_run calls _ _ (same_state_new b m b' m')) as Hrun.
    simpl in He. unfold accelerate, brake; simpl.
    rewrite He in Hrun |- *. inversion Hrun as [e0 g Heg He0 Hg|]; subst.
    exists e, g. split; [done|]. split; [done|].
    destruct Heg as (Hs & Hw & _). done.
Qed.

(** The two cars the benchmark builds are in the same state, as the
    first part of C8 asks. *)
Lemma generic_variants_equivalent_witness :
  same_state (D := Exact)
    (ElectricSportsCar.brake (ElectricSportsCar.new "Tesla" "Model S"))
    (GasSportsCar.brake (GasSportsCar.new "Porsche" "911")).
Proof.
  apply (proj1 (generic_variants_equivalent Exact)
           (ElectricSportsCar.new "Tesla" "Model S") (GasSportsCar.new "Porsche" "911")
           constants.ACCELERATION_VALUE (same_state_new _ _ _ _)).
Defined.

(** C6: one measured iteration of either benchmark is exactly
    [INNER_LOOP_COUNT] = 10 repetitions of: accelerate with 50.0, add
    [getWork()] to the running total, brake, first on the Electric
    variant and then on the Gas variant.  [main] registers the two
    benchmarks, each with display unit millisecond, real-time
    measurement, minimum time 0.1 and 10000 iterations. *)
Theorem benchmark_iteration_and_registration :
  (forall (D : Double) (st : BM_ConceptBased.locals),
     BM_ConceptBased.iteration st = repeat_times 10 ConceptBased_repetition st)
  /\ (forall (D : Double) (st : BM_Polymorphic.locals),
     BM_Polymorphic.iteration st = repeat_times 10 Polymorphic_repetition st)
  /\ (forall (D : Double),
     benchmark.name <$> main_registered = ["ConceptBased"%string; "Polymorphic"%string]
     /\ Forall (fun b =>
          benchmark.time_unit b = Some benchmark.kMillisecond
          /\ benchmark.use_real_time b = true
          /\ benchmark.min_time b = Some (dlit 0.1)
          /\ benchmark.iterations b = Some 10000%Z) main_registered)
  /\ (forall (m : Libm),
     benchmark.min_time <$> main_registered (D := IEEE m) = [Some 0.1%float; Some 0.1%float]).
Proof.
  split; [|split; [|split]].
  - intros D st. unfold BM_ConceptBased.iteration, for_loop.
    apply loop_from_repeat_times, ConceptBased_inner_repetition.
  - intros D st. unfold BM_Polymorphic.iteration, for_loop.
    apply loop_from_repeat_times, Polymorphic_inner_repetition.
  - intros D. split; [reflexivity|].
    repeat constructor.
  - intros m. reflexivity.
Qed.




(** * Further properties of the code *)

(** X1: the kernel touches the first [VECTOR_SIZE] elements only.  On a
    buffer at least that long it returns, stores its 10000 values in
    front and leaves every element behind them as it was; neither the
    values stored nor the work returned depend on what the buffer
    held. *)
Theorem kernel_leaves_rest_of_buffer :
  forall (D : Double) (speed work : double) (cs : list double),
    10000 <= length cs ->
    impl.doAcceleration speed work cs
    = Some (kernel_sum speed work, kernel_buffer speed ++ drop 10000 cs).
Proof. intros D speed work cs Hlen. by apply doAcceleration_frame. Qed.

(** A buffer of 10001 elements meets the hypothesis of X1. *)
Lemma kernel_leaves_rest_of_buffer_witness :
  impl.doAcceleration (D := Exact) constants.ACCELERATION_VALUE (dlit 0.0)
    (vector_new 10001 (of_int 1))
  = Some (kernel_sum constants.ACCELERATION_VALUE (dlit 0.0),
          kernel_buffer constants.ACCELERATION_VALUE
          ++ drop 10000 (vector_new 10001 (of_int 1))).
Proof.
  apply (kernel_leaves_rest_of_buffer Exact).
  rewrite vector_new_length. apply Nat.leb_le. vm_compute. reflexivity.
Defined.

(** X2: in binary64, whatever libm computes, the kernel run at a speed
    below zero (or at a speed that is no number) returns with [work]
    not-a-number: its first term has the factor [sqrt(speed + 0)].  So
    does [accelerate] of each class when the speed it reaches is such,
    and in particular [accelerate(s)] with [s < 0] on a freshly built
    generic car. *)
Theorem negative_speed_poisons_work :
  forall (m : Libm) (speed work : float) (cs : list float)
         (e : ElectricSportsCar.t (D := IEEE m)) (g : GasSportsCar.t (D := IEEE m))
         (v : Vehicle.t (D := IEEE m)) (s : float),
    length cs = 10000 ->
    length (ElectricSportsCar.calculations e) = 10000 ->
    length (GasSportsCar.calculations g) = 10000 ->
    length (PolyVehicle.calculations (Vehicle.object v)) = 10000 ->
    ((speed <? 0)%float = true \/ speed = nan ->
       exists cs', impl.doAcceleration (D := IEEE m) speed work cs = Some (nan, cs'))
    /\ ((ElectricSportsCar.speed e + s <? 0)%float = true
        \/ (ElectricSportsCar.speed e + s)%float = nan ->
       exists e', ElectricSportsCar.accelerate e s = Some e'
                  /\ ElectricSportsCar.getWork e' = nan)
    /\ ((GasSportsCar.speed g + s <? 0)%float = true
        \/ (GasSportsCar.speed g + s)%float = nan ->
       exists g', GasSportsCar.accelerate g s = Some g'
                  /\ GasSportsCar.getWork g' = nan)
    /\ ((Vehicle.getCurrentSpeed v + s * Vehicle.getFriction v <? 0)%float = true
        \/ (Vehicle.getCurrentSpeed v + s * Vehicle.getFriction v)%float = nan ->
       exists v', Vehicle.accelerate v s = Some v'
                  /\ PolyVehicle.getWork (Vehicle.object v') = nan)
    /\ (forall b mo, (s <? 0)%float = true ->
       exists e', ElectricSportsCar.accelerate (D := IEEE m) (ElectricSportsCar.new b mo) s
                  = Some e'
                  /\ ElectricSportsCar.getWork e' = nan)
    /\ (forall b mo, (s <? 0)%float = true ->
       exists g', GasSportsCar.accelerate (D := IEEE m) (GasSportsCar.new b mo) s = Some g'
                  /\ GasSportsCar.getWork g' = nan).
Proof.
  intros m speed work cs e g v s Hcs He Hg Hv.
  assert (Hfresh : (s <? 0)%float = true -> ((0 + s <? 0)%float = true \/ (0 + s)%float = nan)).
  { intros Hs. left. destruct (float_zero_plus s) as [->|[-> _]]; [done|discriminate]. }
  split; [|split; [|split; [|split; [|split]]]].
  - intros Hspeed. rewrite doAcceleration_closed_form by done.
    rewrite (kernel_sum_negative_speed m speed work Hspeed). by eexists.
  - intros Hspeed. rewrite ElectricSportsCar_accelerate_run by done.
    eexists. split; [reflexivity|]. by apply kernel_sum_negative_speed.
  - intros Hspeed. rewrite GasSportsCar_accelerate_run by done.
    eexists. split; [reflexivity|]. by apply kernel_sum_negative_speed.
  - intros Hspeed. destruct (Vehicle_accelerate_run v s Hv) as (p & -> & _ & Hwork & _).
    eexists. split; [reflexivity|].
    transitivity (PolyVehicle.work p); [by destruct v|].
    rewrite Hwork. by apply kernel_sum_negative_speed.
  - intros b mo Hs.
    rewrite ElectricSportsCar_accelerate_run by apply ElectricSportsCar_new_length.
    eexists. split; [reflexivity|]. apply kernel_sum_negative_speed. by apply Hfresh.
  - intros b mo Hs.
    rewrite GasSportsCar_accelerate_run by apply GasSportsCar_new_length.
    eexists. split; [reflexivity|]. apply kernel_sum_negative_speed. by apply Hfresh.
Qed.

(** Buffers and objects as constructed meet the hypotheses of X2; the
    speed is -1.0. *)
Lemma negative_speed_poisons_work_witness :
  exists cs',
    impl.doAcceleration (D := IEEE small_angle_libm) (-1)%float 0%float
      (vector_new constants.VECTOR_SIZE 0%float)
    = Some (nan, cs').
Proof.
  apply (proj1 (negative_speed_poisons_work small_angle_libm (-1)%float 0%float
                  (vector_new constants.VECTOR_SIZE 0%float)
                  (ElectricSportsCar.new "Tesla" "Model S")
                  (GasSportsCar.new "Porsche" "911")
                  (Vehicle.Gas PolyVehicle.new) (-1)%float
                  (vector_new_length _ _)
                  (ElectricSportsCar_new_length _ _)
                  (GasSportsCar_new_length _ _)
                  PolyVehicle_new_length)).
  left. reflexivity.
Defined.

(** X3: in binary64 a [work] that is not-a-number stays so: after any
    sequence of [accelerate] and [brake] calls on an object of any of
    the classes, [getWork()] is still not-a-number, and every call
    returns. *)
Theorem nan_work_is_permanent :
  forall (m : Libm) (calls : list call)
         (e : ElectricSportsCar.t (D := IEEE m)) (g : GasSportsCar.t (D := IEEE m))
         (v : Vehicle.t (D := IEEE m)),
    length (ElectricSportsCar.calculations e) = 10000 ->
    length (GasSportsCar.calculations g) = 10000 ->
    length (PolyVehicle.calculations (Vehicle.object v)) = 10000 ->
    (ElectricSportsCar.getWork e = nan ->
       exists e', run_calls ElectricSportsCar.accelerate ElectricSportsCar.brake calls e = Some e'
                  /\ ElectricSportsCar.getWork e' = nan)
    /\ (GasSportsCar.getWork g = nan ->
       exists g', run_calls GasSportsCar.accelerate GasSportsCar.brake calls g = Some g'
                  /\ GasSportsCar.getWork g' = nan)
    /\ (PolyVehicle.getWork (Vehicle.object v) = nan ->
       exists v', run_calls Vehicle.accelerate Vehicle.brake calls v = Some v'
                  /\ PolyVehicle.getWork (Vehicle.object v') = nan).
Proof.
  intros m calls e g v He Hg Hv. split; [|split]; intros Hw.
  - by apply ElectricSportsCar_nan_run.
  - by apply GasSportsCar_nan_run.
  - by apply Vehicle_nan_run.
Qed.

(** A [PolyElectricCar] whose work is not-a-number, and the calls of one
    repetition of the benchmark after it, meet the hypotheses of X3. *)
Lemma nan_work_is_permanent_witness :
  exists v',
    run_calls (D := IEEE small_angle_libm) Vehicle.accelerate Vehicle.brake
      [Accelerate constants.ACCELERATION_VALUE; Brake]
      (Vehicle.Electric
         (@PolyVehicle.Build_t (IEEE small_angle_libm) 0%float nan
            (vector_new constants.VECTOR_SIZE 0%float)))
    = Some v'
    /\ PolyVehicle.getWork (Vehicle.object v') = nan.
Proof.
  apply (proj2 (proj2 (nan_work_is_permanent small_angle_libm
                         [Accelerate constants.ACCELERATION_VALUE; Brake]
                         (ElectricSportsCar.new "Tesla" "Model S")
                         (GasSportsCar.new "Porsche" "911")
                         (Vehicle.Electric
                            (@PolyVehicle.Build_t (IEEE small_angle_libm) 0%float nan
                               (vector_new constants.VECTOR_SIZE 0%float)))
                         (ElectricSportsCar_new_length _ _)
                         (GasSportsCar_new_length _ _)
                         (vector_new_length _ _)))).
  reflexivity.
Defined.

(** X4: braking twice is braking once.  For the two generic classes and
    [PolyGasCar] the second [brake()] changes nothing; for
    [PolyElectricCar] in binary64 it recovers [0 * 0.85] and so leaves
    speed and buffer as they are and [work] equal to what it was. *)
Theorem brake_twice :
  (forall (D : Double) (e : ElectricSportsCar.t) (g : GasSportsCar.t) (p : PolyVehicle.t),
     ElectricSportsCar.brake (ElectricSportsCar.brake e) = ElectricSportsCar.brake e
     /\ GasSportsCar.brake (GasSportsCar.brake g) = GasSportsCar.brake g
     /\ PolyGasCar.brake (PolyGasCar.brake p) = PolyGasCar.brake p)
  /\ (forall (m : Libm) (p : PolyVehicle.t (D := IEEE m)),
     PolyVehicle.speed (PolyElectricCar.brake (PolyElectricCar.brake p))
     = PolyVehicle.speed (PolyElectricCar.brake p)
     /\ PolyVehicle.calculations (PolyElectricCar.brake (PolyElectricCar.brake p))
        = PolyVehicle.calculations (PolyElectricCar.brake p)
     /\ double_equal
          (PolyVehicle.work (PolyElectricCar.brake (PolyElectricCar.brake p)))
          (PolyVehicle.work (PolyElectricCar.brake p))).
Proof.
  split.
  - intros D e g p. done.
  - intros m p. split; [done|]. split; [done|].
    apply float_plus_zero_equal.
Qed.

(** X5: the two dispatch strategies run the same computation on the gas
    car.  Whatever the sequence of calls, a fresh [PolyGasCar] driven
    through [Vehicle*] ends with the speed, work and buffer of a fresh
    [GasSportsCar] driven by the same calls with every acceleration
    multiplied by [GAS_FRICTION]; both sequences run to their end. *)
Theorem poly_gas_is_scaled_generic_gas :
  forall (D : Double) (calls : list call) (b mo : string),
    exists (g : GasSportsCar.t) (v : Vehicle.t),
      run_calls GasSportsCar.accelerate GasSportsCar.brake
        (scale_call constants.GAS_FRICTION <$> calls) (GasSportsCar.new b mo) = Some g
      /\ run_calls Vehicle.accelerate Vehicle.brake calls (Vehicle.Gas PolyVehicle.new) = Some v
      /\ GasSportsCar.speed g = Vehicle.getCurrentSpeed v
      /\ GasSportsCar.getWork g = PolyVehicle.getWork (Vehicle.object v)
      /\ GasSportsCar.calculations g = PolyVehicle.calculations (Vehicle.object v).
Proof.
  intros D calls b mo.
  destruct (Vehicle_run_sized calls (Vehicle.Gas PolyVehicle.new) PolyVehicle_new_length)
    as (v & Hv & _).
  assert (H0 : same_gas_state (GasSportsCar.new b mo) (Vehicle.Gas PolyVehicle.new)) by done.
  pose proof (same_gas_state_run calls _ _ H0) as Hrun.
  rewrite Hv in Hrun. inversion Hrun as [g v' Hgv Hg Hv'|]; subst.
  exists g, v. split; [done|]. split; [done|].
  destruct v as [p|p]; [done|]. exact Hgv.
Qed.

(** X6: [BM_ConceptBased] in closed form, in binary64 with any libm.
    For every iteration count the benchmark function returns: no access
    of the measured loop leaves a buffer.  Both cars end with the same
    work, the kernel at speed [50.0] applied once per repetition, ten
    repetitions per iteration, from [0]; the total has gained that work
    twice per repetition; and the state handed back is the report of
    that total. *)
Theorem ConceptBased_benchmark_closed_form :
  forall (m : Libm) (to_string : float -> string) (state : State.t (D := IEEE m)),
    let wt := iterate (ConceptBased_step m) (0%float, 0%float)
                (Z.to_nat (State.iterations state) * 10) in
    exists st : BM_ConceptBased.locals (D := IEEE m),
      BM_ConceptBased.run (State.iterations state) = Some st
      /\ ElectricSportsCar.getWork (BM_ConceptBased.tesla st) = fst wt
      /\ GasSportsCar.getWork (BM_ConceptBased.porsche st) = fst wt
      /\ BM_ConceptBased.total_work st = snd wt
      /\ BM_ConceptBased_function (D := IEEE m) to_string state
         = Some (reportStats (D := IEEE m) to_string state (snd wt)).
Proof.
  intros m to_string state wt.
  destruct (ConceptBased_run_closed_form m (State.iterations state))
    as (st & Hrun & _ & He & _ & _ & Hg & _ & Ht).
  exists st. fold wt in He, Hg, Ht.
  split; [done|]. split; [done|]. split; [done|]. split; [done|].
  unfold BM_ConceptBased_function. rewrite Hrun. cbn [mbind option_bind].
  by rewrite Ht.
Qed.

(** X7: [BM_Polymorphic] in closed form, in binary64 with any libm.  For
    every iteration count the benchmark function returns.  Per
    repetition the electric car runs the kernel at speed [42.5] and its
    brake then recovers [36.125]; the gas car runs the kernel at
    [47.5]; the total gains the two works as they are before the
    brakes; and the state handed back is the report of that total.  The
    objects keep their dynamic types. *)
Theorem Polymorphic_benchmark_closed_form :
  forall (m : Libm) (to_string : float -> string) (state : State.t (D := IEEE m)),
    let wwt := iterate (Polymorphic_step m) (0%float, 0%float, 0%float)
                 (Z.to_nat (State.iterations state) * 10) in
    exists (st : BM_Polymorphic.locals (D := IEEE m)) (pe pg : PolyVehicle.t (D := IEEE m)),
      BM_Polymorphic.run (State.iterations state) = Some st
      /\ BM_Polymorphic.vehicles_0 st = Vehicle.Electric pe
      /\ BM_Polymorphic.vehicles_1 st = Vehicle.Gas pg
      /\ PolyVehicle.getWork pe = wwt.1.1
      /\ PolyVehicle.getWork pg = wwt.1.2
      /\ BM_Polymorphic.total_work st = wwt.2
      /\ BM_Polymorphic_function (D := IEEE m) to_string state
         = Some (reportStats (D := IEEE m) to_string state wwt.2).
Proof.
  intros m to_string state wwt.
  destruct (Polymorphic_run_closed_form m (State.iterations state))
    as (st & Hrun & pe & pg & H0 & H1 & _ & He & _ & _ & Hg & _ & Ht).
  exists st, pe, pg. fold wwt in He, Hg, Ht.
  split; [done|]. split; [done|]. split; [done|]. split; [done|]. split; [done|].
  split; [done|].
  unfold BM_Polymorphic_function. rewrite Hrun. cbn [mbind option_bind].
  by rewrite Ht.
Qed.

(** X8: what [reportStats] leaves in the state.  The three counters it
    names hold the iteration count, the iteration count flagged as a
    rate, and the total divided by the iteration count; every other
    counter and the iteration count are as they were; the label is the
    two numbers in their sentence; and of two reports in a row only the
    second is left. *)
Theorem reportStats_frame :
  forall (D : Double) (Dv : DoubleDiv D) (to_string : double -> string)
         (state : State.t) (total_work : double),
    let n := of_int (State.iterations state) in
    let state' := reportStats to_string state total_work in
    State.counters state' !! "iterations"%string = Some (Counter.of_double n)
    /\ State.counters state' !! "items_per_second"%string
       = Some {| Counter.value := n; Counter.flags := Counter.kIsRate |}
    /\ State.counters state' !! "avg_work_per_iteration"%string
       = Some (Counter.of_double (ddiv total_work n))
    /\ (forall k : string,
          k <> "iterations"%string -> k <> "items_per_second"%string ->
          k <> "avg_work_per_iteration"%string ->
          State.counters state' !! k = State.counters state !! k)
    /\ State.iterations state' = State.iterations state
    /\ State.label state'
       = ("Total accumulated work (from calculations): " ++ to_string total_work
          ++ " (avg per iter: " ++ to_string (ddiv total_work n) ++ ")")%string
    /\ (forall total_work' : double,
          reportStats to_string state' total_work'
          = reportStats to_string state total_work').
Proof.
  intros D Dv to_string state total_work n state'.
  unfold state'. rewrite reportStats_counters. fold n.
  split; [|split; [|split; [|split; [|split; [|split]]]]].
  - rewrite lookup_insert_ne by done. rewrite lookup_insert_ne by done.
    by rewrite lookup_insert_eq.
  - rewrite lookup_insert_ne by done. by rewrite lookup_insert_eq.
  - by rewrite lookup_insert_eq.
  - intros k H1 H2 H3. by rewrite !lookup_insert_ne.
  - reflexivity.
  - reflexivity.
  - intros total_work'. apply reportStats_overwrites.
Qed.

(** A key the report does not name, in a state that holds it. *)
Lemma reportStats_frame_witness :
  State.counters
    (reportStats (D := Exact) (fun _ => ""%string)
       (@State.Build_t Exact 4%Z {["bytes"%string := Counter.of_double (D := Exact) 1%R]} "")
       8%R) !! "bytes"%string
  = Some (Counter.of_double (D := Exact) 1%R).
Proof.
  etransitivity.
  - apply (proj1 (proj2 (proj2 (proj2
             (reportStats_frame Exact Exact_div (fun _ => ""%string)
                (@State.Build_t Exact 4%Z
                   {["bytes"%string := Counter.of_double (D := Exact) 1%R]} "")
                8%R))))); done.
  - apply lookup_singleton_eq.
Defined.

(** X9: a state of zero iterations.  In binary64 both benchmark
    functions return, the measured loop having run no iteration; the
    total is [0.0], the count converts to [0.0], and the average the
    report stores is [0.0 / 0.0], not a number. *)
Theorem zero_iterations_average_nan :
  forall (m : Libm) (to_string : float -> string) (state : State.t (D := IEEE m)),
    State.iterations state = 0%Z ->
    (exists state', BM_ConceptBased_function (D := IEEE m) to_string state = Some state'
       /\ State.counters state' !! "avg_work_per_iteration"%string
          = Some (Counter.of_double (D := IEEE m) nan))
    /\ (exists state', BM_Polymorphic_function (D := IEEE m) to_string state = Some state'
       /\ State.counters state' !! "avg_work_per_iteration"%string
          = Some (Counter.of_double (D := IEEE m) nan)).
Proof.
  intros m to_string state H0.
  unfold BM_ConceptBased_function, BM_Polymorphic_function. rewrite H0.
  split; (eexists; split; [reflexivity|]); rewrite reportStats_counters, H0;
    by rewrite lookup_insert_eq.
Qed.

(** A state of zero iterations and no counter. *)
Lemma zero_iterations_average_nan_witness :
  exists state',
    BM_ConceptBased_function (D := IEEE small_angle_libm) (fun _ => ""%string)
      (@State.Build_t (IEEE small_angle_libm) 0%Z ∅ "") = Some state'
    /\ State.counters state' !! "avg_work_per_iteration"%string
       = Some (Counter.of_double (D := IEEE small_angle_libm) nan).
Proof.
  apply (proj1 (zero_iterations_average_nan small_angle_libm (fun _ => ""%string)
                  (@State.Build_t (IEEE small_angle_libm) 0%Z ∅ "") eq_refl)).
Defined.

(** X10: no call changes what an object is.  Along any sequence of
    [accelerate] and [brake] calls a generic car keeps the brand and the
    model it was constructed with, and the object behind a [Vehicle*]
    keeps its dynamic type and so its friction coefficient. *)
Theorem calls_preserve_identity :
  forall (D : Double) (calls : list call) (b mo : string) (v : Vehicle.t),
    sized (PolyVehicle.calculations (Vehicle.object v)) ->
    (exists e, run_calls ElectricSportsCar.accelerate ElectricSportsCar.brake calls
                 (ElectricSportsCar.new b mo) = Some e
               /\ ElectricSportsCar.getBrand e = b /\ ElectricSportsCar.getModel e = mo)
    /\ (exists g, run_calls GasSportsCar.accelerate GasSportsCar.brake calls
                    (GasSportsCar.new b mo) = Some g
                  /\ GasSportsCar.getBrand g = b /\ GasSportsCar.getModel g = mo)
    /\ (exists v', run_calls Vehicle.accelerate Vehicle.brake calls v = Some v'
                   /\ Vehicle.getFriction v' = Vehicle.getFriction v
                   /\ match v, v' with
                      | Vehicle.Electric _, Vehicle.Electric _
                      | Vehicle.Gas _, Vehicle.Gas _ => True
                      | _, _ => False
                      end).
Proof.
  intros D calls b mo v Hv. split; [|split].
  - apply ElectricSportsCar_run_labels.
  - apply GasSportsCar_run_labels.
  - by apply Vehicle_run_friction.
Qed.

(** A [PolyGasCar] as constructed, and the calls of one repetition. *)
Lemma calls_preserve_identity_witness :
  exists v',
    run_calls (D := Exact) Vehicle.accelerate Vehicle.brake
      [Accelerate constants.ACCELERATION_VALUE; Brake]
      (Vehicle.Gas PolyVehicle.new) = Some v'
    /\ Vehicle.getFriction v' = constants.GAS_FRICTION
    /\ match v' with Vehicle.Gas _ => True | Vehicle.Electric _ => False end.
Proof.
  apply (proj2 (proj2 (calls_preserve_identity Exact
                         [Accelerate constants.ACCELERATION_VALUE; Brake]
                         "Porsche" "911" (Vehicle.Gas PolyVehicle.new)
                         PolyVehicle_new_length))).
Defined.


